(** * nvector: geodetic operations on n-vectors (Gade 2010)

    A shallow embedding of [nvector.go].

    Two readings of Go's [float64] are used.

    - [Module NVec]: the whole package, with every [float64] read as a real
      number and every function of package [math] as the real function it
      approximates ([Module GoMath]).  Rounding, infinities, NaN and the
      sign of zero are outside this reading; where Go would produce NaN or
      an infinity (division by zero, square root of a negative number,
      [math.Mod] by zero) the real function returns the value the Standard
      Library assigns ([/ 0 = 0], [sqrt x = 0] for [x < 0]).
    - [Module NVec64]: the functions that need nothing but [+ - * /],
      square roots, comparisons and [math.Mod] ([cross], [dot],
      [Magnitude], [RotationMatrix], [NewLonLat], [interpLinear],
      [Interpolate]) on IEEE 754 binary64 numbers, with the kernel's
      primitive floats, operation for operation and each operation rounded
      on its own.  Package [math]'s sine, cosine and arc tangent have no
      binary64 counterpart here: [LonLat.ToNVector], [ToLonLat],
      [SphericalDistance] and [Intersection] are given on binary64 for any
      functions put in their place, and a statement about them says which
      values of [math.Sin], [math.Cos] or [math.Atan2] it relies on.  The
      functions that call the cube root and the power are given over the
      reals only. *)

From Stdlib Require Import Reals Lra Lia ZArith Bool RNsatz.
From Stdlib Require Floats.

Open Scope R_scope.

(** ** Package [math] on real numbers *)

Module GoMath.

(** The integer nearest to [r] between [0] and [r] (C's [trunc]). *)
Definition Rtrunc (r : R) : Z :=
  if Rle_dec 0 r then Int_part r else (- Int_part (- r))%Z.

(** [math.Mod(x, y)]: the remainder of [x / y] whose sign agrees with that
    of [x] and whose magnitude is less than [y]. *)
Definition Mod (x y : R) : R := x - IZR (Rtrunc (x / y)) * y.

Definition Sqrt (x : R) : R := sqrt x.

Definition Abs (x : R) : R := Rabs x.

Definition Sin (x : R) : R := sin x.

Definition Cos (x : R) : R := cos x.

(** [math.Atan2(y, x)]: the angle of the point [(x, y)], in [(-PI, PI]];
    [Atan2(0, x) = PI] for [x < 0] and [Atan2(0, 0) = 0] as for Go's
    positive zero.  The reals have one zero: where the binary64
    computation reaches [math.Atan2(+0, -0)], which is [math.Pi], this
    reading returns [0], and what the code does there is stated on
    binary64 ([NVec64.Atan2_of_zero]). *)
Definition Atan2 (y x : R) : R :=
  if Rlt_dec 0 x then atan (y / x)
  else if Rlt_dec x 0 then
    if Rle_dec 0 y then atan (y / x) + PI else atan (y / x) - PI
  else if Rlt_dec 0 y then PI / 2
  else if Rlt_dec y 0 then - (PI / 2)
  else 0.

(** [math.Pow(x, y)] at a natural exponent, the only use in the package. *)
Definition Pow (x : R) (n : nat) : R := x ^ n.

(** [math.Cbrt(x)]: the real cube root, an odd function. *)
Definition Cbrt (x : R) : R :=
  if Rlt_dec 0 x then Rpower x (/ 3)
  else if Rlt_dec x 0 then - Rpower (- x) (/ 3)
  else 0.

(** Go's comparisons [<] and [>] as booleans. *)
Definition ltb (x y : R) : bool := if Rlt_dec x y then true else false.
Definition gtb (x y : R) : bool := if Rgt_dec x y then true else false.

End GoMath.

(** ** The package over the reals *)

Module NVec.
Import GoMath.

(** [type Vec3 [3]float64] *)
Record Vec3 : Type := vec3 { e0 : R; e1 : R; e2 : R }.

(** [type Matrix3 [3][3]float64], by rows. *)
Record Matrix3 : Type := mat3 { r0 : Vec3; r1 : Vec3; r2 : Vec3 }.

Record NVector : Type := mkNVector { nvec : Vec3 }.

Record PVector : Type := mkPVector { pvec : Vec3 }.

Record LonLat : Type := mkLonLat { Lon : R; Lat : R }.

Record Ellipsoid : Type := mkEllipsoid { a : R; b : R }.

(** The two error types; Go's [error] interface value is [option error],
    [nil] being [None]. *)
Inductive error : Type :=
| InvalidLatitudeError (lat : R)
| NoIntersectionError.

Definition cross (u v : Vec3) : Vec3 :=
  vec3 (e1 u * e2 v - e2 u * e1 v)
       (e2 u * e0 v - e0 u * e2 v)
       (e0 u * e1 v - e1 u * e0 v).

Definition dot (u v : Vec3) : R :=
  e0 u * e0 v + e1 u * e1 v + e2 u * e2 v.

Definition Magnitude (v : Vec3) : R :=
  Sqrt (e0 v * e0 v + e1 v * e1 v + e2 v * e2 v).

Definition Mult (m : Matrix3) (v : Vec3) : Vec3 :=
  vec3 (e0 v * e0 (r0 m) + e1 v * e1 (r0 m) + e2 v * e2 (r0 m))
       (e0 v * e0 (r1 m) + e1 v * e1 (r1 m) + e2 v * e2 (r1 m))
       (e0 v * e0 (r2 m) + e1 v * e1 (r2 m) + e2 v * e2 (r2 m)).

Definition Transpose (m : Matrix3) : Matrix3 :=
  mat3 (vec3 (e0 (r0 m)) (e0 (r1 m)) (e0 (r2 m)))
       (vec3 (e1 (r0 m)) (e1 (r1 m)) (e1 (r2 m)))
       (vec3 (e2 (r0 m)) (e2 (r1 m)) (e2 (r2 m))).

(** [new(LonLat)]: the zero value. *)
Definition zeroLonLat : LonLat := mkLonLat 0 0.

(** [NewLonLat] returns a pointer and an error; the pointer is an
    [option LonLat], [None] being [nil]. *)
Definition NewLonLat (londeg latdeg : R) : option LonLat * option error :=
  let lon := londeg * PI / 180 in
  let lat := latdeg * PI / 180 in
  let lon := Mod (lon + PI) (2 * PI) - PI in
  if ltb lat (- 0.5 * PI) || gtb lat (0.5 * PI) then
    (Some zeroLonLat, Some (InvalidLatitudeError latdeg))
  else
    (Some (mkLonLat lon lat), None).

Definition LonLat_ToNVector (ll : LonLat) : NVector :=
  let z := Sin (Lat ll) in
  let y := Sin (Lon ll) * Cos (Lat ll) in
  let x := Cos (Lon ll) * Cos (Lat ll) in
  mkNVector (vec3 x y z).

Definition ToLonLat (nv : NVector) : LonLat :=
  let v := nvec nv in
  let lat := Atan2 (e2 v) (Sqrt (e0 v * e0 v + e1 v * e1 v)) in
  let lon := Atan2 (e1 v) (e0 v) in
  let lon := Mod (lon + 0.5 * PI) PI - 0.5 * PI in
  mkLonLat lon lat.

Definition ToPVector (nv : NVector) (ellps : Ellipsoid) : PVector :=
  let v := nvec nv in
  let absq := a ellps * a ellps / (b ellps * b ellps) in
  let coeff := b ellps / Sqrt (e2 v * e2 v + absq * e1 v * e1 v
                               + absq * e0 v * e0 v) in
  mkPVector (vec3 (coeff * absq * e0 v) (coeff * absq * e1 v) (coeff * e2 v)).

Definition PVector_ToNVector (pv : PVector) (ellps : Ellipsoid) : NVector :=
  let p_ := pvec pv in
  let eccen := Sqrt (1 - b ellps * b ellps / (a ellps * a ellps)) in
  let eccen2 := eccen * eccen in
  let eccen4 := eccen2 * eccen2 in
  let a2 := a ellps * a ellps in
  let q := (1 - eccen2) / a2 * e2 p_ * e2 p_ in
  let p := (e1 p_ * e1 p_ + e0 p_ * e0 p_) / a2 in
  let r := (p + q - eccen4) / 6 in
  let s := eccen4 * p * q / (4 * Pow r 3) in
  let t := Cbrt (1 + s + Sqrt (s * (2 + s))) in
  let u := r * (1 + t + 1 / t) in
  let v := Sqrt (u * u + eccen4 * q) in
  let w := 0.5 * eccen2 * (u + v - q) / v in
  let k := Sqrt (u + v + w * w) - w in
  let d := k * Sqrt (e1 p_ * e1 p_ + e0 p_ * e0 p_) / (k + eccen2) in
  let coeff := 1 / Sqrt (d * d + e2 p_ * e2 p_) in
  let kke2 := k / (k + eccen2) in
  mkNVector (vec3 (- coeff * kke2 * e0 p_)
                  (- coeff * kke2 * e1 p_)
                  (coeff * e2 p_)).

Definition RotationMatrix (nv : NVector) : Matrix3 :=
  let east := cross (vec3 0 0 1) (nvec nv) in
  let north := cross (nvec nv) east in
  let a := e0 north / Magnitude north in
  let b := e0 east / Magnitude east in
  let c := - e0 (nvec nv) in
  let d := e1 north / Magnitude north in
  let e := e1 east / Magnitude east in
  let f := - e1 (nvec nv) in
  let g := e2 north / Magnitude north in
  let h := e2 east / Magnitude east in
  let i := - e2 (nvec nv) in
  mat3 (vec3 a b c) (vec3 d e f) (vec3 g h i).

Definition SphericalDistance (nv nv2 : NVector) (R_ : R) : R :=
  let s_ab := Atan2 (Magnitude (cross (nvec nv) (nvec nv2)))
                    (dot (nvec nv) (nvec nv2)) * R_ in
  s_ab.

Definition Azimuth (nv nv2 : NVector) (ellps : Ellipsoid) : R :=
  let pv1 := ToPVector nv ellps in
  let pv2 := ToPVector nv2 ellps in
  let delta_E := vec3 (e0 (pvec pv2) - e0 (pvec pv1))
                      (e1 (pvec pv2) - e1 (pvec pv1))
                      (e2 (pvec pv2) - e2 (pvec pv1)) in
  let rotMat_EN := RotationMatrix nv in
  let rotMat_NE := Transpose rotMat_EN in
  let delta_N := Mult rotMat_NE delta_E in
  Atan2 (e1 delta_N) (e0 delta_N).

Definition Forward (nv : NVector) (az distance radius : R) : NVector :=
  let east := cross (nvec nv) (vec3 0 0 (-1)) in
  let north := cross (nvec nv) east in
  let cos_az := Cos az in
  let sin_az := Sin az in
  let vec_az := vec3 (e0 north * cos_az + e0 east * sin_az)
                     (e1 north * cos_az + e1 east * sin_az)
                     (e2 north * cos_az + e2 east * sin_az) in
  let sab := distance / radius in
  let cos_sab := Cos sab in
  let sin_sab := Sin sab in
  mkNVector (vec3 (e0 (nvec nv) * cos_sab + e0 vec_az * sin_sab)
                  (e1 (nvec nv) * cos_sab + e1 vec_az * sin_sab)
                  (e2 (nvec nv) * cos_sab + e2 vec_az * sin_sab)).

Definition interpLinear (x x0 x1 y0 y1 : R) : R :=
  (x - x0) / (x1 - x0) * (y1 - y0) + y0.

Definition Interpolate (nv nv2 : NVector) (frac : R) : NVector :=
  mkNVector
    (vec3 (interpLinear frac 0 1 (e0 (nvec nv)) (e0 (nvec nv2)))
          (interpLinear frac 0 1 (e1 (nvec nv)) (e1 (nvec nv2)))
          (interpLinear frac 0 1 (e2 (nvec nv)) (e2 (nvec nv2)))).

(** [v] with every component negated: the three assignments of the
    hemisphere selection. *)
Definition negate (v : Vec3) : Vec3 := vec3 (- e0 v) (- e1 v) (- e2 v).

Definition Intersection (nv1a nv1b nv2a nv2b : NVector)
  : NVector * option error :=
  let err : option error := None in
  let normalA := cross (nvec nv1a) (nvec nv1b) in
  let normalB := cross (nvec nv2a) (nvec nv2b) in
  let intersection := cross normalA normalB in
  let intersection :=
    if ltb (dot intersection (nvec nv1a)) 0 then negate intersection
    else intersection in
  let result := mkNVector intersection in
  let dab := SphericalDistance nv1a nv1b 1 in
  let dai := SphericalDistance nv1a result 1 in
  let dbi := SphericalDistance nv1b result 1 in
  let err :=
    if gtb (Abs (dab - dai - dbi)) 1e-9 then Some NoIntersectionError
    else err in
  let dab := SphericalDistance nv2a nv2b 1 in
  let dai := SphericalDistance nv2a result 1 in
  let dbi := SphericalDistance nv2b result 1 in
  let err :=
    if gtb (Abs (dab - dai - dbi)) 1e-9 then Some NoIntersectionError
    else err in
  (mkNVector intersection, err).

End NVec.

(** ** The package on binary64, as far as primitive floats reach *)

Module NVec64.
Import PrimFloat.
Local Open Scope float_scope.

Record Vec3 : Type := vec3 { e0 : float; e1 : float; e2 : float }.

Record NVector : Type := mkNVector { nvec : Vec3 }.

Record Matrix3 : Type := mat3 { r0 : Vec3; r1 : Vec3; r2 : Vec3 }.

Definition cross (u v : Vec3) : Vec3 :=
  vec3 (e1 u * e2 v - e2 u * e1 v)
       (e2 u * e0 v - e0 u * e2 v)
       (e0 u * e1 v - e1 u * e0 v).

Definition dot (u v : Vec3) : float :=
  e0 u * e0 v + e1 u * e1 v + e2 u * e2 v.

Definition Magnitude (v : Vec3) : float :=
  sqrt (e0 v * e0 v + e1 v * e1 v + e2 v * e2 v).

Definition RotationMatrix (nv : NVector) : Matrix3 :=
  let east := cross (vec3 0 0 1) (nvec nv) in
  let north := cross (nvec nv) east in
  let a := e0 north / Magnitude north in
  let b := e0 east / Magnitude east in
  let c := - e0 (nvec nv) in
  let d := e1 north / Magnitude north in
  let e := e1 east / Magnitude east in
  let f := - e1 (nvec nv) in
  let g := e2 north / Magnitude north in
  let h := e2 east / Magnitude east in
  let i := - e2 (nvec nv) in
  mat3 (vec3 a b c) (vec3 d e f) (vec3 g h i).

Definition interpLinear (x x0 x1 y0 y1 : float) : float :=
  (x - x0) / (x1 - x0) * (y1 - y0) + y0.

Definition Interpolate (nv nv2 : NVector) (frac : float) : NVector :=
  mkNVector
    (vec3 (interpLinear frac 0 1 (e0 (nvec nv)) (e0 (nvec nv2)))
          (interpLinear frac 0 1 (e1 (nvec nv)) (e1 (nvec nv2)))
          (interpLinear frac 0 1 (e2 (nvec nv)) (e2 (nvec nv2)))).

Record LonLat : Type := mkLonLat { Lon : float; Lat : float }.

Inductive error : Type :=
| InvalidLatitudeError (lat : float)
| NoIntersectionError.

(** [math.Pi] as a [float64]. *)
Definition Pi : float := 0x1.921fb54442d18p+1.

(** [math.Mod(x, y)] on binary64.  The remainder of two finite numbers is
    computed exactly on integers, after both are scaled to a common
    exponent, and takes the sign of [x]; it is always a binary64 number.
    The special cases are those of package [math]. *)
Definition Mod (x y : float) : float :=
  match FloatOps.Prim2SF x, FloatOps.Prim2SF y with
  | SpecFloat.S754_nan, _ | _, SpecFloat.S754_nan => nan
  | SpecFloat.S754_infinity _, _ => nan
  | _, SpecFloat.S754_zero _ => nan
  | _, SpecFloat.S754_infinity _ => x
  | SpecFloat.S754_zero _, _ => x
  | SpecFloat.S754_finite sx mx ex, SpecFloat.S754_finite _ my ey =>
      let ez := Z.min ex ey in
      let X := (Zpos mx * 2 ^ (ex - ez))%Z in
      let Y := (Zpos my * 2 ^ (ey - ez))%Z in
      let r := Z.rem X Y in
      FloatOps.SF2Prim
        (SpecFloat.binary_normalize FloatOps.prec FloatOps.emax
           (SpecFloat.cond_Zopp sx r) ez sx)
  end.

(** [NewLonLat] on binary64.  The constants [2*math.Pi], [-0.5*math.Pi] and
    [0.5*math.Pi] are exact constant expressions of Go, rounded once. *)
Definition NewLonLat (londeg latdeg : float) : option LonLat * option error :=
  let lon := londeg * Pi / 180 in
  let lat := latdeg * Pi / 180 in
  let lon := Mod (lon + Pi) 0x1.921fb54442d18p+2 - Pi in
  if (lat <? -0x1.921fb54442d18p+0) || (0x1.921fb54442d18p+0 <? lat) then
    (Some (mkLonLat 0 0), Some (InvalidLatitudeError latdeg))
  else
    (Some (mkLonLat lon lat), None).

(** [SphericalDistance] and [ToLonLat] on binary64, for any function
    [Atan2] of two [float64] arguments put in the place of [math.Atan2]. *)
Section WithAtan2.
Variable Atan2 : float -> float -> float.

Definition SphericalDistance (nv nv2 : NVector) (R_ : float) : float :=
  let s_ab := Atan2 (Magnitude (cross (nvec nv) (nvec nv2)))
                    (dot (nvec nv) (nvec nv2)) * R_ in
  s_ab.

Definition ToLonLat (nv : NVector) : LonLat :=
  let v := nvec nv in
  let lat := Atan2 (e2 v) (sqrt (e0 v * e0 v + e1 v * e1 v)) in
  let lon := Atan2 (e1 v) (e0 v) in
  let lon := Mod (lon + 0x1.921fb54442d18p+0) Pi - 0x1.921fb54442d18p+0 in
  mkLonLat lon lat.

End WithAtan2.

(** Go's [==] on two vectors, component by component. *)
Definition Vec3_eqb (u v : Vec3) : bool :=
  eqb (e0 u) (e0 v) && eqb (e1 u) (e1 v) && eqb (e2 u) (e2 v).

(** A number that is neither an infinity nor NaN. *)
Definition finite64 (x : float) : bool :=
  match FloatOps.Prim2SF x with
  | SpecFloat.S754_zero _ | SpecFloat.S754_finite _ _ _ => true
  | _ => false
  end.

(** The negative zero. *)
Definition neg_zero64 (x : float) : bool :=
  match FloatOps.Prim2SF x with
  | SpecFloat.S754_zero true => true
  | _ => false
  end.

(** A zero of either sign. *)
Definition zero64 (x : float) : bool :=
  match FloatOps.Prim2SF x with
  | SpecFloat.S754_zero _ => true
  | _ => false
  end.

(** NaN. *)
Definition nan64 (x : float) : bool :=
  match FloatOps.Prim2SF x with
  | SpecFloat.S754_nan => true
  | _ => false
  end.

(** The sign bit of a number other than NaN: [math.Signbit]. *)
Definition signbit64 (x : float) : bool :=
  match FloatOps.Prim2SF x with
  | SpecFloat.S754_zero s | SpecFloat.S754_infinity s
  | SpecFloat.S754_finite s _ _ => s
  | SpecFloat.S754_nan => false
  end.

(** Every component of [v] has its sign bit set: the vector lies in the
    closed octant of the negative numbers and negative zeros. *)
Definition all_signbit (v : Vec3) : bool :=
  signbit64 (e0 v) && signbit64 (e1 v) && signbit64 (e2 v).

(** No component of [v] is an infinity or NaN. *)
Definition finite_vec (v : Vec3) : bool :=
  finite64 (e0 v) && finite64 (e1 v) && finite64 (e2 v).

(** No component of [v - u] overflows or is NaN, and no component of [u]
    is a negative zero. *)
Definition plain_difference (u v : Vec3) : bool :=
  finite64 (e0 v - e0 u) && negb (neg_zero64 (e0 u)) &&
  (finite64 (e1 v - e1 u) && negb (neg_zero64 (e1 u))) &&
  (finite64 (e2 v - e2 u) && negb (neg_zero64 (e2 u))).

(** No product of two different components of [v] overflows or is NaN. *)
Definition finite_products (v : Vec3) : bool :=
  finite64 (e1 v * e2 v) && finite64 (e2 v * e0 v) && finite64 (e0 v * e1 v).

(** No component of [v] is an infinity or NaN, no product of two
    different components overflows, and the squared length is not NaN. *)
Definition plain_vector (v : Vec3) : bool :=
  finite_vec v && finite_products v && negb (nan64 (dot v v)).

(** What package [math] documents of [math.Atan2] at a first argument
    [+0]: [Atan2(+0, x) = +0] for [x >= 0] and [Atan2(+0, x) = +Pi] for
    [x <= -0], the sign bit of a zero counting. *)
Definition Atan2_of_zero (Atan2 : float -> float -> float) : Prop :=
  forall x : float,
    nan64 x = false -> Atan2 0 x = if signbit64 x then Pi else 0.

(** The special cases of [math.Atan2] for a NaN argument and for a first
    argument [+-0], in the order of its source: NaN, then [Copysign(0, y)]
    if [x >= 0 && !Signbit(x)] and [Copysign(Pi, y)] otherwise.  Where
    [math.Atan2] goes on to compute an arc tangent this function returns
    NaN: it stands for [math.Atan2] in the evaluations that end in one of
    these special cases, and in no other. *)
Definition Atan2_at_zero (y x : float) : float :=
  if nan64 x || nan64 y then nan
  else if y =? 0 then
    if (0 <=? x) && negb (signbit64 x)
    then (if signbit64 y then -0 else 0)
    else (if signbit64 y then - Pi else Pi)
  else nan.

(** The specification's wording of the rotation matrix, on binary64. *)
Definition normalized (v : Vec3) : Vec3 :=
  vec3 (e0 v / Magnitude v) (e1 v / Magnitude v) (e2 v / Magnitude v).

Definition negate (v : Vec3) : Vec3 := vec3 (- e0 v) (- e1 v) (- e2 v).

Definition of_columns (c0 c1 c2 : Vec3) : Matrix3 :=
  mat3 (vec3 (e0 c0) (e0 c1) (e0 c2))
       (vec3 (e1 c0) (e1 c1) (e1 c2))
       (vec3 (e2 c0) (e2 c1) (e2 c2)).

Definition RotationMatrix_spec (nv : NVector) : Matrix3 :=
  let east := cross (nvec nv) (vec3 0 0 1) in
  let north := cross (nvec nv) east in
  of_columns (normalized north) (normalized east) (negate (nvec nv)).

(** Two n-vectors of length one in binary64, for the examples: [(1, 0, 0)]
    and [(0.1, 0.7, sqrt 0.5)], each component the nearest binary64
    number. *)
Definition nv_x : NVector := mkNVector (vec3 1 0 0).
Definition nv_q : NVector :=
  mkNVector
    (vec3 0x1.999999999999ap-4 0x1.6666666666666p-1 0x1.6a09e667f3bcdp-1).

(** [LonLat.ToNVector] on binary64, for any functions [Sin] and [Cos] put
    in the place of [math.Sin] and [math.Cos]. *)
Section WithSinCos.
Variables Sin Cos : float -> float.

Definition LonLat_ToNVector (ll : LonLat) : NVector :=
  let z := Sin (Lat ll) in
  let y := Sin (Lon ll) * Cos (Lat ll) in
  let x := Cos (Lon ll) * Cos (Lat ll) in
  mkNVector (vec3 x y z).

End WithSinCos.

(** [Intersection] on binary64, for any function [Atan2] put in the place
    of [math.Atan2].  The constant [1e-9] is the binary64 number nearest to
    it. *)
Section IntersectionWithAtan2.
Variable Atan2 : float -> float -> float.

Definition Intersection (nv1a nv1b nv2a nv2b : NVector)
  : NVector * option error :=
  let err : option error := None in
  let normalA := cross (nvec nv1a) (nvec nv1b) in
  let normalB := cross (nvec nv2a) (nvec nv2b) in
  let intersection := cross normalA normalB in
  let intersection :=
    if dot intersection (nvec nv1a) <? 0 then negate intersection
    else intersection in
  let result := mkNVector intersection in
  let dab := SphericalDistance Atan2 nv1a nv1b 1 in
  let dai := SphericalDistance Atan2 nv1a result 1 in
  let dbi := SphericalDistance Atan2 nv1b result 1 in
  let err :=
    if 0x1.12e0be826d695p-30 <? abs (dab - dai - dbi)
    then Some NoIntersectionError else err in
  let dab := SphericalDistance Atan2 nv2a nv2b 1 in
  let dai := SphericalDistance Atan2 nv2a result 1 in
  let dbi := SphericalDistance Atan2 nv2b result 1 in
  let err :=
    if 0x1.12e0be826d695p-30 <? abs (dab - dai - dbi)
    then Some NoIntersectionError else err in
  (mkNVector intersection, err).

End IntersectionWithAtan2.

End NVec64.

(** ** The specification's wording, for comparison with the code *)

Module NVecSpec.
Import GoMath NVec.

(** A vector divided by its magnitude, component by component. *)
Definition normalized (v : Vec3) : Vec3 :=
  vec3 (e0 v / Magnitude v) (e1 v / Magnitude v) (e2 v / Magnitude v).

(** The matrix whose row [i] holds the [i]-th components of three vectors,
    that is, whose columns are the three vectors. *)
Definition of_columns (c0 c1 c2 : Vec3) : Matrix3 :=
  mat3 (vec3 (e0 c0) (e0 c1) (e0 c2))
       (vec3 (e1 c0) (e1 c1) (e1 c2))
       (vec3 (e2 c0) (e2 c1) (e2 c2)).

(** The three columns of a matrix. *)
Definition col0 (m : Matrix3) : Vec3 := vec3 (e0 (r0 m)) (e0 (r1 m)) (e0 (r2 m)).
Definition col1 (m : Matrix3) : Vec3 := vec3 (e1 (r0 m)) (e1 (r1 m)) (e1 (r2 m)).
Definition col2 (m : Matrix3) : Vec3 := vec3 (e2 (r0 m)) (e2 (r1 m)) (e2 (r2 m)).

(** The rotation matrix as the specification words it:
    [east = nv x (0,0,1)], [north = nv x east]. *)
Definition RotationMatrix_spec (nv : NVector) : Matrix3 :=
  let east := cross (nvec nv) (vec3 0 0 1) in
  let north := cross (nvec nv) east in
  of_columns (normalized north) (normalized east) (negate (nvec nv)).

(** The same construction with the east vector of the code,
    [east = (0,0,1) x nv]. *)
Definition RotationMatrix_east_first (nv : NVector) : Matrix3 :=
  let east := cross (vec3 0 0 1) (nvec nv) in
  let north := cross (nvec nv) east in
  of_columns (normalized north) (normalized east) (negate (nvec nv)).

(** The on-segment check of the intersection: the point [i] lies on the
    arc from [p] to [q] when the two partial distances add up to the whole,
    to within [1e-9] on the unit sphere. *)
Definition on_segment (p q i : NVector) : Prop :=
  Rabs (SphericalDistance p q 1 - SphericalDistance p i 1
        - SphericalDistance q i 1) <= 1e-9.

(** The candidate intersection: the cross product of the two plane
    normals. *)
Definition candidate (nv1a nv1b nv2a nv2b : NVector) : Vec3 :=
  cross (cross (nvec nv1a) (nvec nv1b)) (cross (nvec nv2a) (nvec nv2b)).

(** The invariant of [LonLat]. *)
Definition lon_in_range (ll : LonLat) : Prop := - PI <= Lon ll < PI.
Definition lat_in_range (ll : LonLat) : Prop := - (PI / 2) <= Lat ll <= PI / 2.

(** A vector of length one. *)
Definition is_unit (v : Vec3) : Prop := dot v v = 1.

(** A point of the surface of the ellipsoid: [x^2/a^2 + y^2/a^2 + z^2/b^2
    = 1]. *)
Definition on_ellipsoid (ellps : Ellipsoid) (p : Vec3) : Prop :=
  e0 p * e0 p / (a ellps * a ellps) + e1 p * e1 p / (a ellps * a ellps)
  + e2 p * e2 p / (b ellps * b ellps) = 1.

(** The difference of two vectors, component by component. *)
Definition vsub (u v : Vec3) : Vec3 :=
  vec3 (e0 u - e0 v) (e1 u - e1 v) (e2 u - e2 v).

(** The point at angle [theta] from [u] towards [w] on the circle they
    span. *)
Definition along (u w : Vec3) (theta : R) : Vec3 :=
  vec3 (e0 u * cos theta + e0 w * sin theta)
       (e1 u * cos theta + e1 w * sin theta)
       (e2 u * cos theta + e2 w * sin theta).

(** The squared eccentricity and the scalar [k] that [PVector.ToNVector]
    computes on its way, as far as the line [k := ...] of the source. *)
Definition ToNVector_eccen2 (ellps : Ellipsoid) : R :=
  let eccen := Sqrt (1 - b ellps * b ellps / (a ellps * a ellps)) in
  eccen * eccen.

(** [PVector.ToNVector] divides by no zero and takes the square root of no
    negative number: the divisors and the arguments of [math.Sqrt], in the
    order of the source.  Where one of these conditions fails the binary64
    computation yields an infinity or NaN, which the reading over the reals
    does not show. *)
Definition ToNVector_defined (pv : PVector) (ellps : Ellipsoid) : Prop :=
  let p_ := pvec pv in
  let eccen := Sqrt (1 - b ellps * b ellps / (a ellps * a ellps)) in
  let eccen2 := eccen * eccen in
  let eccen4 := eccen2 * eccen2 in
  let a2 := a ellps * a ellps in
  let q := (1 - eccen2) / a2 * e2 p_ * e2 p_ in
  let p := (e1 p_ * e1 p_ + e0 p_ * e0 p_) / a2 in
  let r := (p + q - eccen4) / 6 in
  let s := eccen4 * p * q / (4 * Pow r 3) in
  let t := Cbrt (1 + s + Sqrt (s * (2 + s))) in
  let u := r * (1 + t + 1 / t) in
  let v := Sqrt (u * u + eccen4 * q) in
  let w := 0.5 * eccen2 * (u + v - q) / v in
  let k := Sqrt (u + v + w * w) - w in
  let d := k * Sqrt (e1 p_ * e1 p_ + e0 p_ * e0 p_) / (k + eccen2) in
  a2 <> 0 /\
  0 <= 1 - b ellps * b ellps / a2 /\
  4 * Pow r 3 <> 0 /\
  0 <= s * (2 + s) /\
  t <> 0 /\
  0 <= u * u + eccen4 * q /\
  v <> 0 /\
  0 <= u + v + w * w /\
  k + eccen2 <> 0 /\
  0 < d * d + e2 p_ * e2 p_.

Definition ToNVector_k (pv : PVector) (ellps : Ellipsoid) : R :=
  let p_ := pvec pv in
  let eccen := Sqrt (1 - b ellps * b ellps / (a ellps * a ellps)) in
  let eccen2 := eccen * eccen in
  let eccen4 := eccen2 * eccen2 in
  let a2 := a ellps * a ellps in
  let q := (1 - eccen2) / a2 * e2 p_ * e2 p_ in
  let p := (e1 p_ * e1 p_ + e0 p_ * e0 p_) / a2 in
  let r := (p + q - eccen4) / 6 in
  let s := eccen4 * p * q / (4 * Pow r 3) in
  let t := Cbrt (1 + s + Sqrt (s * (2 + s))) in
  let u := r * (1 + t + 1 / t) in
  let v := Sqrt (u * u + eccen4 * q) in
  let w := 0.5 * eccen2 * (u + v - q) / v in
  Sqrt (u + v + w * w) - w.

End NVecSpec.

(** ** Facts about the functions of package [math] *)

Module GoMathFacts.
Import GoMath.

Lemma Int_part_unit (r : R) : 0 <= r < 1 -> Int_part r = 0%Z.
Proof.
  intros [H0 H1]. symmetry. apply Int_part_spec. simpl. lra.
Qed.

Lemma Rtrunc_small (r : R) : -1 < r < 1 -> Rtrunc r = 0%Z.
Proof.
  intros [Hl Hu]. unfold Rtrunc.
  destruct (Rle_dec 0 r) as [Hr | Hr].
  - apply Int_part_unit. lra.
  - rewrite Int_part_unit by lra. reflexivity.
Qed.

(** On a dividend smaller in magnitude than the divisor, [Mod] is the
    identity, whatever the sign of the dividend. *)
Lemma Mod_small (x y : R) : 0 < y -> - y < x < y -> Mod x y = x.
Proof.
  intros Hy [Hl Hu]. unfold Mod.
  rewrite Rtrunc_small; [simpl; ring |].
  split.
  - apply Rmult_lt_reg_r with y; [assumption |].
    unfold Rdiv. rewrite Rmult_assoc, Rinv_l by lra. lra.
  - apply Rmult_lt_reg_r with y; [assumption |].
    unfold Rdiv. rewrite Rmult_assoc, Rinv_l by lra. lra.
Qed.

(** A non-negative dividend is reduced into [[0, y)]. *)
Lemma Mod_nonneg_range (x y : R) : 0 <= x -> 0 < y -> 0 <= Mod x y < y.
Proof.
  intros Hx Hy. unfold Mod, Rtrunc.
  assert (Hq : 0 <= x / y).
  { unfold Rdiv. apply Rmult_le_pos; [assumption |].
    left. apply Rinv_0_lt_compat. assumption. }
  destruct (Rle_dec 0 (x / y)) as [_ | Hn]; [| contradiction].
  destruct (base_Int_part (x / y)) as [Hlo Hhi].
  assert (Hx' : x = x / y * y) by (field; lra).
  set (n := IZR (Int_part (x / y))) in *.
  split.
  - assert (n * y <= x / y * y) by (apply Rmult_le_compat_r; lra). lra.
  - assert ((x / y - n) * y < 1 * y) by (apply Rmult_lt_compat_r; lra). lra.
Qed.

Lemma ltb_true (x y : R) : x < y -> ltb x y = true.
Proof. intros H. unfold ltb. destruct (Rlt_dec x y); [reflexivity | contradiction]. Qed.

Lemma ltb_false (x y : R) : y <= x -> ltb x y = false.
Proof. intros H. unfold ltb. destruct (Rlt_dec x y); [lra | reflexivity]. Qed.

Lemma gtb_true (x y : R) : y < x -> gtb x y = true.
Proof. intros H. unfold gtb. destruct (Rgt_dec x y); [reflexivity | lra]. Qed.

Lemma gtb_false (x y : R) : x <= y -> gtb x y = false.
Proof. intros H. unfold gtb. destruct (Rgt_dec x y); [lra | reflexivity]. Qed.

Lemma atan_nonneg (x : R) : 0 <= x -> 0 <= atan x.
Proof.
  intros [H | H].
  - left. rewrite <- atan_0. apply atan_increasing. assumption.
  - subst. rewrite atan_0. lra.
Qed.

Lemma atan_nonpos (x : R) : x <= 0 -> atan x <= 0.
Proof.
  intros [H | H].
  - left. rewrite <- atan_0. apply atan_increasing. assumption.
  - subst. rewrite atan_0. lra.
Qed.

(** With a non-negative first argument the angle lies in [[0, PI]]. *)
Lemma Atan2_nonneg_range (y x : R) : 0 <= y -> 0 <= Atan2 y x <= PI.
Proof.
  intros Hy. unfold Atan2.
  pose proof PI_RGT_0 as Hpi.
  destruct (Rlt_dec 0 x) as [Hx | Hx].
  - assert (0 <= y / x).
    { unfold Rdiv. apply Rmult_le_pos; [assumption |].
      left. apply Rinv_0_lt_compat. assumption. }
    pose proof (atan_nonneg _ H). pose proof (atan_bound (y / x)). lra.
  - destruct (Rlt_dec x 0) as [Hx' | Hx'].
    + destruct (Rle_dec 0 y) as [_ | Hn]; [| contradiction].
      assert (y / x <= 0).
      { unfold Rdiv. replace (y * / x) with (- (y * / - x)).
        - assert (0 <= y * / - x); [| lra].
          apply Rmult_le_pos; [assumption |].
          left. apply Rinv_0_lt_compat. lra.
        - rewrite Rinv_opp. ring. }
      pose proof (atan_nonpos _ H). pose proof (atan_bound (y / x)). lra.
    + destruct (Rlt_dec 0 y); [lra |].
      destruct (Rlt_dec y 0); lra.
Qed.

(** [Atan2(0, x) = 0] for every [x >= 0]. *)
Lemma Atan2_0_nonneg (x : R) : 0 <= x -> Atan2 0 x = 0.
Proof.
  intros Hx. unfold Atan2.
  destruct (Rlt_dec 0 x).
  - unfold Rdiv. rewrite Rmult_0_l. apply atan_0.
  - destruct (Rlt_dec x 0); [lra |].
    destruct (Rlt_dec 0 0); [lra | reflexivity].
Qed.

End GoMathFacts.

(** ** Binary64 arithmetic *)

Module Binary64Facts.
Import PrimFloat FloatOps SpecFloat FloatAxioms.
Local Open Scope float_scope.

Lemma Prim2SF_0 : Prim2SF 0 = S754_zero false.
Proof. reflexivity. Qed.

Lemma Prim2SF_1 : Prim2SF 1 = S754_finite false 4503599627370496 (-52).
Proof. reflexivity. Qed.

(** Zero times a finite number is a zero, of one sign or the other. *)
Lemma zero_times_finite (z : float) :
  NVec64.finite64 z = true -> exists s : bool, Prim2SF (0 * z) = S754_zero s.
Proof.
  unfold NVec64.finite64. intros H. rewrite mul_spec, Prim2SF_0.
  destruct (Prim2SF z) as [s | s | | s m e]; try discriminate;
    simpl; eexists; reflexivity.
Qed.

(** Adding a zero on the left changes nothing but a negative zero. *)
Lemma zero_plus (s : bool) (x y : float) :
  Prim2SF x = S754_zero s -> NVec64.neg_zero64 y = false -> x + y = y.
Proof.
  unfold NVec64.neg_zero64. intros Hx Hy. apply Prim2SF_inj.
  rewrite add_spec, Hx.
  destruct (Prim2SF y) as [[|] | s' | | s' m e]; try discriminate;
    destruct s; reflexivity.
Qed.

Lemma digits2_pos_shift52 (m : positive) :
  (Zpos (digits2_pos (4503599627370496 * m))
   = Zpos (digits2_pos m) + 52)%Z.
Proof.
  cbn [Pos.mul digits2_pos].
  repeat rewrite Pos2Z.inj_succ. lia.
Qed.

(** Multiplication by [1] is exact: the product of the mantissas is the
    mantissa shifted by 52 bits, and rounding shifts it back. *)
Lemma one_times (z : float) : 1 * z = z.
Proof.
  apply Prim2SF_inj. rewrite mul_spec, Prim2SF_1.
  pose proof (Prim2SF_valid z) as Hv.
  destruct (Prim2SF z) as [s | s | | s m e]; try reflexivity.
  simpl in Hv. unfold bounded, canonical_mantissa in Hv.
  apply andb_prop in Hv. destruct Hv as [Hc He].
  apply Z.eqb_eq in Hc.
  unfold SF64mul, SFmul. cbn [xorb].
  unfold binary_round_aux, shr_fexp.
  unfold Zdigits2 at 1. rewrite digits2_pos_shift52.
  replace (Z.pos (digits2_pos m) + 52 + (-52 + e))%Z
    with (Z.pos (digits2_pos m) + e)%Z by lia.
  rewrite Hc.
  replace (e - (-52 + e))%Z with 52%Z by lia.
  cbn [Pos.mul shr shr_record_of_loc iter_pos shr_1 orb loc_of_shr_record
       round_nearest_even shr_m shr_r shr_s].
  replace (-52 + e + 52)%Z with e by lia.
  cbn [Zdigits2]. rewrite Hc, Z.sub_diag.
  cbn [shr shr_m].
  rewrite He. reflexivity.
Qed.

(** [Mod] on a few pairs, against the values of the C library's [fmod]. *)
Lemma Mod_examples :
  NVec64.Mod 0x1.6p+2 2 = 0x1.8p+0 /\
  NVec64.Mod (-0x1.6p+2) 2 = -0x1.8p+0 /\
  NVec64.Mod 0x1.6345785d8ap+56 0x1.a666666666666p+1
    = 0x1.176940521cb4p+1 /\
  NVec64.Mod (-0x1.e240c9fbe76c9p+16) 0x1.0624dd2f1a9fcp-10
    = -0x1.e9095p-40 /\
  Prim2SF (NVec64.Mod (-4) 2) = S754_zero true /\
  NVec64.Mod NVec64.Pi 0x1.921fb54442d18p+2 = NVec64.Pi.
Proof. repeat split; vm_compute; reflexivity. Qed.

(** The renormalization of [ToLonLat] at the largest binary64 number below
    [math.Pi / 2]: the sum [lon + math.Pi / 2] rounds up to [math.Pi], the
    remainder is [0] and the longitude returned is [- math.Pi / 2]. *)
Lemma ToLonLat64_below_half_pi
    (Atan2 : float -> float -> float) (nv : NVec64.NVector) :
  Atan2 (NVec64.e1 (NVec64.nvec nv)) (NVec64.e0 (NVec64.nvec nv))
    = 0x1.921fb54442d17p+0 ->
  (0x1.921fb54442d17p+0 <? 0x1.921fb54442d18p+0) = true /\
  NVec64.Lon (NVec64.ToLonLat Atan2 nv) = -0x1.921fb54442d18p+0.
Proof.
  intros H. split; [reflexivity |].
  unfold NVec64.ToLonLat. cbn [NVec64.Lon]. rewrite H.
  vm_compute. reflexivity.
Qed.

(** C5, at the largest binary64 longitude below [math.Pi / 2],
    [0x1.921fb54442d17p+0], and latitude [0]: the round trip does not
    recover the longitude.  The exact arc tangent of its sine and cosine is
    that longitude itself; if [Atan2] returns it to the last bit, as
    [math.Atan2] does, or returns [math.Pi / 2], the sum
    [lon + math.Pi / 2] rounds to [math.Pi], the remainder of the
    renormalization by [math.Pi] is [0] and the longitude that comes back
    is [- math.Pi / 2], farther than [1e-9] from the longitude that went
    in. *)
Lemma ToLonLat64_ToNVector_below_half_pi :
  ((-0x1.921fb54442d18p+0 <? 0x1.921fb54442d17p+0) = true /\
   (0x1.921fb54442d17p+0 <? 0x1.921fb54442d18p+0) = true) /\
  forall (Sin Cos : float -> float)
         (Atan2 : float -> float -> float),
    (Atan2
       (NVec64.e1 (NVec64.nvec (NVec64.LonLat_ToNVector Sin Cos
          (NVec64.mkLonLat 0x1.921fb54442d17p+0 0))))
       (NVec64.e0 (NVec64.nvec (NVec64.LonLat_ToNVector Sin Cos
          (NVec64.mkLonLat 0x1.921fb54442d17p+0 0))))
     = 0x1.921fb54442d17p+0 \/
     Atan2
       (NVec64.e1 (NVec64.nvec (NVec64.LonLat_ToNVector Sin Cos
          (NVec64.mkLonLat 0x1.921fb54442d17p+0 0))))
       (NVec64.e0 (NVec64.nvec (NVec64.LonLat_ToNVector Sin Cos
          (NVec64.mkLonLat 0x1.921fb54442d17p+0 0))))
     = 0x1.921fb54442d18p+0) ->
    (NVec64.Lon (NVec64.ToLonLat Atan2 (NVec64.LonLat_ToNVector Sin Cos
                   (NVec64.mkLonLat 0x1.921fb54442d17p+0 0)))
     = -0x1.921fb54442d18p+0 /\
     (0x1.12e0be826d695p-30 <?
      abs
        (NVec64.Lon (NVec64.ToLonLat Atan2 (NVec64.LonLat_ToNVector Sin Cos
                       (NVec64.mkLonLat 0x1.921fb54442d17p+0 0)))
         - 0x1.921fb54442d17p+0)) = true).
Proof.
  split; [split; reflexivity |].
  intros Sin Cos Atan2 H.
  assert (HL : NVec64.Lon (NVec64.ToLonLat Atan2
                 (NVec64.LonLat_ToNVector Sin Cos
                    (NVec64.mkLonLat 0x1.921fb54442d17p+0 0)))
               = (-0x1.921fb54442d18p+0)).
  { unfold NVec64.ToLonLat. cbn [NVec64.Lon].
    destruct H as [H | H]; rewrite H; vm_compute; reflexivity. }
  split; [exact HL |]. rewrite HL. vm_compute. reflexivity.
Qed.

(** [interpLinear] at the two end points, for one component. *)
Lemma interpLinear64_at_0 (y0 y1 : float) :
  NVec64.finite64 (y1 - y0) = true -> NVec64.neg_zero64 y0 = false ->
  NVec64.interpLinear 0 0 1 y0 y1 = y0.
Proof.
  intros Hfin Hz.
  change (NVec64.interpLinear 0 0 1 y0 y1) with (0 * (y1 - y0) + y0).
  destruct (zero_times_finite _ Hfin) as [s Hs].
  exact (zero_plus s _ _ Hs Hz).
Qed.

Lemma interpLinear64_at_1 (y0 y1 : float) :
  NVec64.interpLinear 1 0 1 y0 y1 = (y1 - y0) + y0.
Proof.
  change (NVec64.interpLinear 1 0 1 y0 y1) with (1 * (y1 - y0) + y0).
  rewrite one_times. reflexivity.
Qed.

(** Multiplication is commutative. *)
Lemma SFmul_comm (x y : spec_float) : SF64mul x y = SF64mul y x.
Proof.
  destruct x as [sx | sx | | sx mx ex], y as [sy | sy | | sy my ey];
    unfold SF64mul; simpl; try reflexivity;
    try (rewrite xorb_comm; reflexivity).
  rewrite xorb_comm, Pos.mul_comm, Z.add_comm. reflexivity.
Qed.

Lemma mul_comm64 (x y : float) : x * y = y * x.
Proof. apply Prim2SF_inj. rewrite !mul_spec. apply SFmul_comm. Qed.

(** Rounding commutes with the change of sign. *)
Lemma binary_round_aux_opp (s : bool) (m e : Z) (l : location) :
  binary_round_aux prec emax (negb s) m e l
  = SFopp (binary_round_aux prec emax s m e l).
Proof.
  unfold binary_round_aux.
  destruct (shr_fexp prec emax m e l) as [mrs e'].
  destruct (shr_fexp prec emax _ e' loc_Exact) as [mrs' e''].
  destruct (shr_m mrs') as [| p | p]; try reflexivity.
  destruct (e'' <=? emax - prec)%Z; reflexivity.
Qed.

Lemma binary_round_opp (s : bool) (m : positive) (e : Z) :
  binary_round prec emax (negb s) m e = SFopp (binary_round prec emax s m e).
Proof.
  unfold binary_round.
  destruct (shl_align m e _) as [mz ez].
  apply binary_round_aux_opp.
Qed.

Lemma binary_normalize_opp (m e : Z) :
  m <> 0%Z ->
  binary_normalize prec emax (- m) e false
  = SFopp (binary_normalize prec emax m e false).
Proof.
  intros Hm. destruct m as [| p | p]; [contradiction | |]; simpl.
  - apply (binary_round_opp false).
  - rewrite (binary_round_opp false).
    destruct (binary_round prec emax false p e); simpl; try reflexivity;
      rewrite ?negb_involutive; reflexivity.
Qed.

(** [y - x] is the opposite of [x - y], unless both are the positive
    zero. *)
Lemma SFsub_swap (x y : spec_float) :
  SF64sub y x = SFopp (SF64sub x y) \/
  (SF64sub x y = S754_zero false /\ SF64sub y x = S754_zero false).
Proof.
  destruct x as [sx | sx | | sx mx ex], y as [sy | sy | | sy my ey];
    unfold SF64sub; simpl;
    try (destruct sx, sy; simpl; auto; fail);
    try (destruct sx; simpl; auto; fail);
    try (destruct sy; simpl; auto; fail);
    try (left; rewrite ?negb_involutive; reflexivity).
  rewrite (Z.min_comm ey ex).
  set (ez := Z.min ex ey).
  set (A := cond_Zopp sx (Z.pos (fst (shl_align mx ex ez)))).
  set (B := cond_Zopp sy (Z.pos (fst (shl_align my ey ez)))).
  destruct (Z.eq_dec (A - B) 0) as [H0 | Hn].
  - right. replace (B - A)%Z with 0%Z by lia. rewrite H0. split; reflexivity.
  - left. replace (B - A)%Z with (- (A - B))%Z by lia.
    apply binary_normalize_opp. exact Hn.
Qed.

Lemma SFmul_opp_opp (z : spec_float) :
  SF64mul (SFopp z) (SFopp z) = SF64mul z z.
Proof.
  destruct z as [s | s | | s m e]; unfold SF64mul; simpl; try reflexivity;
    destruct s; reflexivity.
Qed.

(** The squares of [y - x] and of [x - y] are the same number. *)
Lemma square_sub_swap (x y : float) : (y - x) * (y - x) = (x - y) * (x - y).
Proof.
  apply Prim2SF_inj. rewrite !mul_spec, !sub_spec.
  destruct (SFsub_swap (Prim2SF x) (Prim2SF y)) as [H | [H1 H2]].
  - rewrite H. apply SFmul_opp_opp.
  - rewrite H1, H2. reflexivity.
Qed.

(** A finite number minus itself is the positive zero. *)
Lemma sub_diag64 (x : float) : NVec64.finite64 x = true -> x - x = 0.
Proof.
  unfold NVec64.finite64. intros H. apply Prim2SF_inj. rewrite sub_spec.
  destruct (Prim2SF x) as [s | s | | s m e]; try discriminate.
  - destruct s; reflexivity.
  - unfold SF64sub, SFsub. rewrite Z.sub_diag. reflexivity.
Qed.

(** The dot product is symmetric, and swapping the factors of a cross
    product keeps its magnitude, bit for bit. *)
Lemma dot_comm64 (u v : NVec64.Vec3) : NVec64.dot u v = NVec64.dot v u.
Proof.
  unfold NVec64.dot.
  rewrite (mul_comm64 (NVec64.e0 u)), (mul_comm64 (NVec64.e1 u)),
    (mul_comm64 (NVec64.e2 u)).
  reflexivity.
Qed.

Lemma Magnitude_cross_comm64 (u v : NVec64.Vec3) :
  NVec64.Magnitude (NVec64.cross u v) = NVec64.Magnitude (NVec64.cross v u).
Proof.
  unfold NVec64.Magnitude, NVec64.cross. cbn [NVec64.e0 NVec64.e1 NVec64.e2].
  rewrite (mul_comm64 (NVec64.e1 v) (NVec64.e2 u)),
    (mul_comm64 (NVec64.e2 v) (NVec64.e1 u)),
    (mul_comm64 (NVec64.e2 v) (NVec64.e0 u)),
    (mul_comm64 (NVec64.e0 v) (NVec64.e2 u)),
    (mul_comm64 (NVec64.e0 v) (NVec64.e1 u)),
    (mul_comm64 (NVec64.e1 v) (NVec64.e0 u)).
  rewrite (square_sub_swap (NVec64.e1 u * NVec64.e2 v)),
    (square_sub_swap (NVec64.e2 u * NVec64.e0 v)),
    (square_sub_swap (NVec64.e0 u * NVec64.e1 v)).
  reflexivity.
Qed.

(** The cross product of a vector with itself is the zero vector, as long
    as no product of two components overflows. *)
Lemma cross_self64 (v : NVec64.Vec3) :
  NVec64.finite64 (NVec64.e1 v * NVec64.e2 v) = true ->
  NVec64.finite64 (NVec64.e2 v * NVec64.e0 v) = true ->
  NVec64.finite64 (NVec64.e0 v * NVec64.e1 v) = true ->
  NVec64.cross v v = NVec64.vec3 0 0 0.
Proof.
  intros H12 H20 H01. unfold NVec64.cross.
  rewrite (mul_comm64 (NVec64.e2 v) (NVec64.e1 v)),
    (mul_comm64 (NVec64.e0 v) (NVec64.e2 v)),
    (mul_comm64 (NVec64.e1 v) (NVec64.e0 v)).
  rewrite !sub_diag64 by assumption. reflexivity.
Qed.

(** Rounding keeps the sign it is given. *)
Lemma binary_round_aux_sign (s : bool) (m e : Z) (l : location) :
  match binary_round_aux prec emax s m e l with
  | S754_zero s' | S754_infinity s' | S754_finite s' _ _ => s' = s
  | S754_nan => True
  end.
Proof.
  unfold binary_round_aux.
  destruct (shr_fexp prec emax m e l) as [mrs e'].
  destruct (shr_fexp prec emax _ e' loc_Exact) as [mrs' e''].
  destruct (shr_m mrs') as [| p | p]; try exact I; try reflexivity.
  destruct (e'' <=? emax - prec)%Z; reflexivity.
Qed.

Lemma binary_round_sign (s : bool) (m : positive) (e : Z) :
  match binary_round prec emax s m e with
  | S754_zero s' | S754_infinity s' | S754_finite s' _ _ => s' = s
  | S754_nan => True
  end.
Proof.
  unfold binary_round.
  destruct (shl_align m e _) as [mz ez].
  apply binary_round_aux_sign.
Qed.

(** A square has no sign bit, and neither has a sum of two numbers
    without sign bit: the squared length [dot v v] is never a negative
    zero. *)
Lemma square_signbit (x : float) : NVec64.signbit64 (x * x) = false.
Proof.
  unfold NVec64.signbit64. rewrite mul_spec.
  destruct (Prim2SF x) as [s | s | | s m e]; unfold SF64mul; simpl;
    try reflexivity; try (destruct s; reflexivity).
  pose proof (binary_round_aux_sign (xorb s s) (Z.pos (m * m)) (e + e)
                loc_Exact) as H.
  destruct (binary_round_aux prec emax (xorb s s) (Z.pos (m * m)) (e + e)
              loc_Exact);
    try reflexivity; rewrite H; destruct s; reflexivity.
Qed.

Lemma add_signbit (x y : float) :
  NVec64.signbit64 x = false -> NVec64.signbit64 y = false ->
  NVec64.signbit64 (x + y) = false.
Proof.
  unfold NVec64.signbit64. rewrite add_spec.
  destruct (Prim2SF x) as [sx | sx | | sx mx ex],
           (Prim2SF y) as [sy | sy | | sy my ey];
    intros Hx Hy; subst; try reflexivity.
  unfold SF64add, SFadd. cbn [cond_Zopp Z.add binary_normalize].
  match goal with
  | |- context [binary_round prec emax false ?m ?e] =>
      pose proof (binary_round_sign false m e) as H;
      destruct (binary_round prec emax false m e)
  end; try reflexivity; exact H.
Qed.

Lemma dot_self_signbit (v : NVec64.Vec3) :
  NVec64.signbit64 (NVec64.dot v v) = false.
Proof.
  unfold NVec64.dot. repeat apply add_signbit; apply square_signbit.
Qed.

(** A number that compares with [0] is not NaN. *)
Lemma leb_0_not_nan (x : float) : (0 <=? x) = true -> NVec64.nan64 x = false.
Proof.
  unfold NVec64.nan64. rewrite leb_spec.
  destruct (Prim2SF x); intros H; try reflexivity; discriminate.
Qed.

(** Go's [x == 0] holds of the two zeros and of nothing else. *)
Lemma eqb_0_zero64 (x : float) : (x =? 0) = NVec64.zero64 x.
Proof.
  rewrite eqb_spec. unfold NVec64.zero64.
  destruct (Prim2SF x) as [s | s | | s m e]; try reflexivity;
    destruct s; reflexivity.
Qed.

(** The n-vector of longitude [0] and latitude [math.Pi / 2]: if
    [Cos 0 = 1], its first component is [Cos (math.Pi / 2)]; if moreover
    [Sin 0 = 0] and [Sin (math.Pi / 2) = 1], Go's [==] finds it equal to
    [(0, 0, 1)] exactly when [Cos (math.Pi / 2)] is a zero. *)
Lemma ToNVector64_at_half_pi_first (Sin Cos : float -> float) :
  Cos 0 = 1 ->
  NVec64.e0 (NVec64.nvec (NVec64.LonLat_ToNVector Sin Cos
                            (NVec64.mkLonLat 0 0x1.921fb54442d18p+0)))
  = Cos 0x1.921fb54442d18p+0.
Proof.
  intros Hc0. unfold NVec64.LonLat_ToNVector.
  cbn [NVec64.nvec NVec64.e0 NVec64.Lon NVec64.Lat].
  rewrite Hc0. apply one_times.
Qed.

Lemma ToNVector64_at_half_pi_eqb (Sin Cos : float -> float) :
  Sin 0 = 0 -> Cos 0 = 1 -> Sin 0x1.921fb54442d18p+0 = 1 ->
  NVec64.Vec3_eqb
    (NVec64.nvec (NVec64.LonLat_ToNVector Sin Cos
                    (NVec64.mkLonLat 0 0x1.921fb54442d18p+0)))
    (NVec64.vec3 0 0 1)
  = NVec64.zero64 (Cos 0x1.921fb54442d18p+0).
Proof.
  intros Hs0 Hc0 Hs1. unfold NVec64.Vec3_eqb.
  rewrite (ToNVector64_at_half_pi_first Sin Cos Hc0).
  unfold NVec64.LonLat_ToNVector.
  cbn [NVec64.nvec NVec64.e0 NVec64.e1 NVec64.e2 NVec64.Lon NVec64.Lat].
  rewrite Hs0, Hs1, !eqb_0_zero64.
  change (1 =? 1) with true. rewrite andb_true_r.
  unfold NVec64.zero64. rewrite mul_spec.
  destruct (Prim2SF (Cos 0x1.921fb54442d18p+0)) as [s | s | | s m e];
    reflexivity.
Qed.

(** [Atan2_at_zero] has the special cases of [math.Atan2] at a first
    argument [+0]. *)
Lemma Atan2_at_zero_of_zero : NVec64.Atan2_of_zero NVec64.Atan2_at_zero.
Proof.
  intros x Hx. unfold NVec64.Atan2_at_zero.
  rewrite leb_spec. unfold NVec64.nan64, NVec64.signbit64 in *.
  destruct (Prim2SF x) as [[|] | [|] | | [|] m e]; try discriminate;
    reflexivity.
Qed.

End Binary64Facts.

(** ** Vector algebra *)

Module VecFacts.
Import GoMath NVec.

Lemma Magnitude_nonneg (v : Vec3) : 0 <= Magnitude v.
Proof. unfold Magnitude, Sqrt. apply sqrt_pos. Qed.

Lemma cross_self (v : Vec3) : cross v v = vec3 0 0 0.
Proof. unfold cross. f_equal; ring. Qed.

Lemma Magnitude_zero : Magnitude (vec3 0 0 0) = 0.
Proof.
  unfold Magnitude, Sqrt. simpl.
  replace (0 * 0 + 0 * 0 + 0 * 0) with 0 by ring. apply sqrt_0.
Qed.

Lemma dot_self_nonneg (v : Vec3) : 0 <= dot v v.
Proof.
  unfold dot.
  pose proof (Rle_0_sqr (e0 v)). pose proof (Rle_0_sqr (e1 v)).
  pose proof (Rle_0_sqr (e2 v)). unfold Rsqr in *. lra.
Qed.

Lemma dot_comm (u v : Vec3) : dot u v = dot v u.
Proof. unfold dot. ring. Qed.

(** Swapping the factors negates the cross product and keeps its
    magnitude. *)
Lemma Magnitude_cross_comm (u v : Vec3) :
  Magnitude (cross u v) = Magnitude (cross v u).
Proof. unfold Magnitude, cross. simpl. f_equal. ring. Qed.

Lemma dot_negate_l (u v : Vec3) : dot (negate u) v = - dot u v.
Proof. unfold dot, negate. simpl. ring. Qed.

End VecFacts.

(** ** Spherical distance *)

Module DistanceFacts.
Import PrimFloat.
Import GoMath NVec GoMathFacts VecFacts.

(** On binary64, if [Atan2] returns [+0] at [(+0, x)] for every [x >= 0]
    without sign bit ([+0], a positive number or [+Inf]), as [math.Atan2]
    does, the distance from a point to itself is a zero whenever no product
    of two components overflows, the squared length is not NaN and the
    radius is finite.  The squared length is a sum of squares and never the
    negative zero, at which [math.Atan2] returns [Pi]. *)
Lemma SphericalDistance64_self
    (Atan2 : float -> float -> float) (nv : NVec64.NVector) (R_ : float) :
  (forall x : float,
      (0 <=? x)%float = true -> NVec64.signbit64 x = false ->
      Atan2 0%float x = 0%float) ->
  NVec64.finite_products (NVec64.nvec nv) = true ->
  (0 <=? NVec64.dot (NVec64.nvec nv) (NVec64.nvec nv))%float = true ->
  NVec64.finite64 R_ = true ->
  exists s : bool,
    FloatOps.Prim2SF (NVec64.SphericalDistance Atan2 nv nv R_)
    = SpecFloat.S754_zero s.
Proof.
  intros Hat Hfin Hdot HR. unfold NVec64.SphericalDistance.
  unfold NVec64.finite_products in Hfin.
  apply andb_prop in Hfin. destruct Hfin as [Hfin H01].
  apply andb_prop in Hfin. destruct Hfin as [H12 H20].
  rewrite Binary64Facts.cross_self64 by assumption.
  change (NVec64.Magnitude (NVec64.vec3 0 0 0)) with 0%float.
  rewrite Hat by (assumption || apply Binary64Facts.dot_self_signbit).
  apply Binary64Facts.zero_times_finite. assumption.
Qed.

(** The distance from [(0.1, 0.7, sqrt 0.5)] to itself on a sphere of
    radius 6371000, with the special cases of [math.Atan2] at a first
    argument zero. *)
Lemma SphericalDistance64_self_witness :
  NVec64.finite_products (NVec64.nvec NVec64.nv_q) = true /\
  exists s : bool,
    FloatOps.Prim2SF
      (NVec64.SphericalDistance NVec64.Atan2_at_zero NVec64.nv_q NVec64.nv_q
         6371000%float)
    = SpecFloat.S754_zero s.
Proof.
  assert (Hat : forall x : float,
             (0 <=? x)%float = true -> NVec64.signbit64 x = false ->
             NVec64.Atan2_at_zero 0%float x = 0%float).
  { intros x Hx Hs.
    rewrite (Binary64Facts.Atan2_at_zero_of_zero x
               (Binary64Facts.leb_0_not_nan x Hx)), Hs.
    reflexivity. }
  assert (Hfin : NVec64.finite_products (NVec64.nvec NVec64.nv_q) = true)
    by (vm_compute; reflexivity).
  split; [exact Hfin |].
  apply (SphericalDistance64_self NVec64.Atan2_at_zero NVec64.nv_q
           6371000%float Hat Hfin); vm_compute; reflexivity.
Defined.

(** C7. The spherical distance from a point to itself is exactly [0],
    whatever the radius (the vector need not even be of unit length), and
    the distance is symmetric in its two points.  On binary64 the distance
    is symmetric bit for bit, whatever function stands for [math.Atan2]. *)
Theorem SphericalDistance_self_and_symmetric :
  (forall (nv : NVector) (R_ : R), SphericalDistance nv nv R_ = 0) /\
  (forall (p q : NVector) (R_ : R),
      SphericalDistance p q R_ = SphericalDistance q p R_) /\
  (forall (Atan2 : float -> float -> float) (p q : NVec64.NVector)
          (R_ : float),
      NVec64.SphericalDistance Atan2 p q R_
      = NVec64.SphericalDistance Atan2 q p R_).
Proof.
  split; [| split].
  - intros nv R_. unfold SphericalDistance.
    rewrite cross_self, Magnitude_zero.
    rewrite Atan2_0_nonneg by apply dot_self_nonneg. ring.
  - intros p q R_. unfold SphericalDistance.
    rewrite (Magnitude_cross_comm (nvec p) (nvec q)).
    rewrite (dot_comm (nvec p) (nvec q)). reflexivity.
  - intros Atan2 p q R_. unfold NVec64.SphericalDistance.
    rewrite (Binary64Facts.Magnitude_cross_comm64 (NVec64.nvec p)),
      (Binary64Facts.dot_comm64 (NVec64.nvec p)).
    reflexivity.
Qed.

(** C10. For a radius [R >= 0] the spherical distance lies in
    [[0, PI * R]]: the magnitude of the cross product, the first argument of
    [Atan2], is never negative, so the angle lies in [[0, PI]] before it is
    scaled by [R]. *)
Theorem SphericalDistance_range (p q : NVector) (R_ : R) :
  0 <= R_ ->
  0 <= Magnitude (cross (nvec p) (nvec q)) /\
  0 <= Atan2 (Magnitude (cross (nvec p) (nvec q))) (dot (nvec p) (nvec q))
    <= PI /\
  0 <= SphericalDistance p q R_ <= PI * R_.
Proof.
  intros HR.
  pose proof (Magnitude_nonneg (cross (nvec p) (nvec q))) as Hm.
  pose proof (Atan2_nonneg_range _ (dot (nvec p) (nvec q)) Hm) as [Hlo Hhi].
  split; [assumption |]. split; [split; assumption |].
  unfold SphericalDistance. split.
  - apply Rmult_le_pos; assumption.
  - apply Rmult_le_compat_r; assumption.
Qed.

(** The range at the points [(1,0,0)], [(0,1,0)] and on a sphere of radius
    [2]. *)
Lemma SphericalDistance_range_witness :
  0 <= 2 /\
  0 <= SphericalDistance (mkNVector (vec3 1 0 0)) (mkNVector (vec3 0 1 0)) 2
    <= PI * 2.
Proof.
  assert (H : 0 <= 2) by lra.
  split; [exact H |].
  apply (SphericalDistance_range
           (mkNVector (vec3 1 0 0)) (mkNVector (vec3 0 1 0)) 2 H).
Defined.

End DistanceFacts.

(** ** Intersection of two segments *)

Module IntersectionFacts.
Import GoMath NVec NVecSpec GoMathFacts VecFacts.

Lemma gtb_spec (x y : R) : gtb x y = true <-> ~ x <= y.
Proof.
  unfold gtb. destruct (Rgt_dec x y) as [H | H]; split; intros H'.
  - lra.
  - reflexivity.
  - discriminate.
  - lra.
Qed.

(** The error left by the two successive checks on the magnitudes [x1] and
    [x2]: the second overwrites what the first left only when it fails. *)
Lemma two_checks (x1 x2 : R) :
  let err :=
    if gtb x2 1e-9 then Some NoIntersectionError
    else if gtb x1 1e-9 then Some NoIntersectionError else None in
  (err = Some NoIntersectionError <-> ~ x1 <= 1e-9 \/ ~ x2 <= 1e-9) /\
  (err = None <-> x1 <= 1e-9 /\ x2 <= 1e-9).
Proof.
  unfold gtb.
  destruct (Rgt_dec x2 1e-9) as [H2 | H2];
    destruct (Rgt_dec x1 1e-9) as [H1 | H1]; cbv zeta;
    (split; split; intros H; try discriminate; try reflexivity;
     try (right; lra); try (left; lra); try lra).
Qed.

(** The point that [Intersection] returns, whatever the error. *)
Lemma Intersection_point (nv1a nv1b nv2a nv2b : NVector) :
  nvec (fst (Intersection nv1a nv1b nv2a nv2b)) =
  if ltb (dot (candidate nv1a nv1b nv2a nv2b) (nvec nv1a)) 0
  then negate (candidate nv1a nv1b nv2a nv2b)
  else candidate nv1a nv1b nv2a nv2b.
Proof. reflexivity. Qed.

(** The error that [Intersection] returns, from the two checks. *)
Lemma Intersection_error (nv1a nv1b nv2a nv2b : NVector) :
  let i := fst (Intersection nv1a nv1b nv2a nv2b) in
  snd (Intersection nv1a nv1b nv2a nv2b) =
  if gtb (Abs (SphericalDistance nv2a nv2b 1 - SphericalDistance nv2a i 1
               - SphericalDistance nv2b i 1)) 1e-9
  then Some NoIntersectionError
  else if gtb (Abs (SphericalDistance nv1a nv1b 1 - SphericalDistance nv1a i 1
                    - SphericalDistance nv1b i 1)) 1e-9
       then Some NoIntersectionError
       else None.
Proof. reflexivity. Qed.

(** C1. [Intersection] returns a point in every case: the cross product of
    the two plane normals, negated when its dot product with [nv1a] is
    negative, so that the returned point [i] has [i . nv1a >= 0].  The error
    is [NoIntersectionError] exactly when one of the two segments fails the
    check [|d(A,B) - d(A,i) - d(B,i)| <= 1e-9] on the unit sphere, and [nil]
    exactly when both pass. *)
Theorem Intersection_contract (nv1a nv1b nv2a nv2b : NVector) :
  let c := candidate nv1a nv1b nv2a nv2b in
  let i := fst (Intersection nv1a nv1b nv2a nv2b) in
  let err := snd (Intersection nv1a nv1b nv2a nv2b) in
  (dot c (nvec nv1a) < 0 -> nvec i = negate c) /\
  (0 <= dot c (nvec nv1a) -> nvec i = c) /\
  0 <= dot (nvec i) (nvec nv1a) /\
  (err = Some NoIntersectionError <->
   ~ on_segment nv1a nv1b i \/ ~ on_segment nv2a nv2b i) /\
  (err = None <-> on_segment nv1a nv1b i /\ on_segment nv2a nv2b i).
Proof.
  intros c i err.
  assert (Hpt : nvec i = if ltb (dot c (nvec nv1a)) 0 then negate c else c)
    by apply Intersection_point.
  assert (Herr : err =
    if gtb (Abs (SphericalDistance nv2a nv2b 1 - SphericalDistance nv2a i 1
                 - SphericalDistance nv2b i 1)) 1e-9
    then Some NoIntersectionError
    else if gtb (Abs (SphericalDistance nv1a nv1b 1
                      - SphericalDistance nv1a i 1
                      - SphericalDistance nv1b i 1)) 1e-9
         then Some NoIntersectionError
         else None)
    by apply Intersection_error.
  split; [| split; [| split; [| split]]].
  - intros Hneg. rewrite Hpt, ltb_true by assumption. reflexivity.
  - intros Hpos. rewrite Hpt, ltb_false by assumption. reflexivity.
  - rewrite Hpt. unfold ltb.
    destruct (Rlt_dec (dot c (nvec nv1a)) 0) as [Hneg | Hpos].
    + rewrite dot_negate_l. lra.
    + lra.
  - rewrite Herr. apply (two_checks _ _).
  - rewrite Herr. apply (two_checks _ _).
Qed.

End IntersectionFacts.

(** ** Construction of a [LonLat] *)

Module LonLatFacts.
Import PrimFloat.
Import GoMath NVec NVecSpec GoMathFacts.

(** The latitude test of [NewLonLat], as a proposition. *)
Lemma latitude_test (lat : R) :
  ltb lat (- 0.5 * PI) || gtb lat (0.5 * PI) = false <->
  - (PI / 2) <= lat <= PI / 2.
Proof.
  unfold ltb, gtb.
  destruct (Rlt_dec lat (- 0.5 * PI)); destruct (Rgt_dec lat (0.5 * PI));
    simpl; split; intros H; try discriminate; try reflexivity; lra.
Qed.

(** What [NewLonLat] returns when the latitude passes the test. *)
Lemma NewLonLat_accepts (londeg latdeg : R) :
  - (PI / 2) <= latdeg * PI / 180 <= PI / 2 ->
  NewLonLat londeg latdeg =
  (Some (mkLonLat (Mod (londeg * PI / 180 + PI) (2 * PI) - PI)
                  (latdeg * PI / 180)), None).
Proof.
  intros H. unfold NewLonLat. cbv zeta.
  apply latitude_test in H. rewrite H. reflexivity.
Qed.

(** What it returns when the latitude fails the test. *)
Lemma NewLonLat_rejects (londeg latdeg : R) :
  latdeg * PI / 180 < - (PI / 2) \/ PI / 2 < latdeg * PI / 180 ->
  NewLonLat londeg latdeg =
  (Some zeroLonLat, Some (InvalidLatitudeError latdeg)).
Proof.
  intros H. unfold NewLonLat. cbv zeta.
  destruct (ltb (latdeg * PI / 180) (- 0.5 * PI)
            || gtb (latdeg * PI / 180) (0.5 * PI)) eqn:E; [reflexivity |].
  apply latitude_test in E. lra.
Qed.

(** An accepted latitude is in range, and a longitude of at least -180
    degrees is normalized into [[-PI, PI)]. *)
Lemma NewLonLat_in_range_from_minus_180 (londeg latdeg : R) (ll : LonLat) :
  NewLonLat londeg latdeg = (Some ll, None) ->
  lat_in_range ll /\ (-180 <= londeg -> lon_in_range ll).
Proof.
  unfold NewLonLat. cbv zeta.
  destruct (ltb (latdeg * PI / 180) (- 0.5 * PI)
            || gtb (latdeg * PI / 180) (0.5 * PI)) eqn:E; [discriminate |].
  intros H. injection H as <-.
  apply latitude_test in E.
  split; [exact E |].
  intros Hlon. unfold lon_in_range. simpl.
  pose proof PI_RGT_0 as Hpi.
  assert (H0 : 0 <= londeg * PI / 180 + PI).
  { assert (0 <= (londeg + 180) * PI) by (apply Rmult_le_pos; lra). lra. }
  pose proof (Mod_nonneg_range _ (2 * PI) H0 ltac:(lra)). lra.
Qed.

(** The range of the result at [(190, 45)]: the longitude wraps to
    [-17 PI / 18]. *)
Lemma NewLonLat_in_range_from_minus_180_witness :
  let ll := mkLonLat (Mod (190 * PI / 180 + PI) (2 * PI) - PI)
                     (45 * PI / 180) in
  NewLonLat 190 45 = (Some ll, None) /\
  lat_in_range ll /\ (-180 <= 190 -> lon_in_range ll).
Proof.
  cbv zeta.
  assert (H : NewLonLat 190 45 =
              (Some (mkLonLat (Mod (190 * PI / 180 + PI) (2 * PI) - PI)
                              (45 * PI / 180)), None)).
  { apply NewLonLat_accepts. pose proof PI_RGT_0. lra. }
  split; [exact H |].
  exact (NewLonLat_in_range_from_minus_180 190 45 _ H).
Defined.

(** C2, at the input [(-190, 0)]: the pair is accepted, and the longitude
    of the result is [-19 PI / 18], below [-PI]: [Mod] keeps the sign of
    the negative dividend [lon + PI] instead of wrapping it into
    [[0, 2 PI)].  On binary64 the longitude returned is
    [-0x1.a876cd8f2a161p+1], about [-3.316], below [-math.Pi]. *)
Theorem NewLonLat_minus_190_below_range :
  (NewLonLat (-190) 0 = (Some (mkLonLat (- (19 * PI / 18)) 0), None) /\
   - (19 * PI / 18) < - PI /\
   ~ lon_in_range (mkLonLat (- (19 * PI / 18)) 0)) /\
  (NVec64.NewLonLat (-190) 0 =
     (Some (NVec64.mkLonLat (-0x1.a876cd8f2a161p+1) 0), None) /\
   PrimFloat.ltb (-0x1.a876cd8f2a161p+1) (- NVec64.Pi) = true)%float.
Proof.
  pose proof PI_RGT_0 as Hpi.
  split; [split; [| split] | split].
  - rewrite NewLonLat_accepts by lra.
    rewrite Mod_small by lra.
    do 2 f_equal. f_equal; field.
  - lra.
  - unfold lon_in_range. simpl. lra.
  - vm_compute. reflexivity.
  - vm_compute. reflexivity.
Qed.

(** On binary64 the n-vector of [NewLonLat(0, 90)] is not [(0, 0, 1)]:
    the call is accepted and stores the latitude [math.Pi / 2], and with
    [math.Cos(0) = 1] the first component of the n-vector is
    [math.Cos(math.Pi / 2)], which is not a zero (the cosine of the binary64
    number [math.Pi / 2] is about [6.1e-17]), so Go's [==] with [(0, 0, 1)]
    is false. *)
Lemma ToNVector64_of_90_is_not_0_0_1 :
  exists ll : NVec64.LonLat,
    NVec64.NewLonLat 0 90 = (Some ll, None) /\
    forall Sin Cos : float -> float,
      Cos 0%float = 1%float ->
      NVec64.zero64 (Cos (NVec64.Lat ll)) = false ->
      NVec64.Vec3_eqb (NVec64.nvec (NVec64.LonLat_ToNVector Sin Cos ll))
                      (NVec64.vec3 0 0 1) = false.
Proof.
  exists (NVec64.mkLonLat 0 0x1.921fb54442d18p+0)%float.
  split; [vm_compute; reflexivity |].
  cbn [NVec64.Lat]. intros Sin Cos Hc0 Hz. unfold NVec64.Vec3_eqb.
  rewrite (Binary64Facts.ToNVector64_at_half_pi_first Sin Cos Hc0).
  cbn [NVec64.e0]. rewrite Binary64Facts.eqb_0_zero64, Hz. reflexivity.
Qed.

(** C8, amended.  [NewLonLat(0, 90)] succeeds with a [nil] error and
    [NewLonLat(0, 91)] fails with an [InvalidLatitudeError] that carries the
    degree value [91], which is not the radian value [91 PI / 180].  The
    result of the first call converts to the n-vector [(0, 0, 1)] in exact
    real arithmetic.  On binary64 the first call stores longitude [0] and
    latitude [math.Pi / 2], the second is rejected with the value [91], and
    the n-vector of the first is
    [(Cos 0 * Cos (Pi/2), Sin 0 * Cos (Pi/2), Sin (Pi/2))]: with
    [Sin 0 = 0], [Cos 0 = 1] and [Sin (Pi/2) = 1] it equals [(0, 0, 1)]
    under Go's [==] exactly when [Cos (Pi/2)] is a zero, which the cosine
    of the binary64 number [math.Pi / 2] is not. *)
Theorem NewLonLat_90_and_91 :
  ((exists ll : LonLat,
       NewLonLat 0 90 = (Some ll, None) /\
       LonLat_ToNVector ll = mkNVector (vec3 0 0 1)) /\
   snd (NewLonLat 0 91) = Some (InvalidLatitudeError 91) /\
   91 <> 91 * PI / 180) /\
  (NVec64.NewLonLat 0 90 =
     (Some (NVec64.mkLonLat 0 0x1.921fb54442d18p+0), None) /\
   snd (NVec64.NewLonLat 0 91) = Some (NVec64.InvalidLatitudeError 91) /\
   forall Sin Cos : float -> float,
     NVec64.LonLat_ToNVector Sin Cos
       (NVec64.mkLonLat 0 0x1.921fb54442d18p+0)
     = NVec64.mkNVector
         (NVec64.vec3 (Cos 0 * Cos 0x1.921fb54442d18p+0)
                      (Sin 0 * Cos 0x1.921fb54442d18p+0)
                      (Sin 0x1.921fb54442d18p+0)) /\
     (Sin 0 = 0 -> Cos 0 = 1 -> Sin 0x1.921fb54442d18p+0 = 1 ->
      NVec64.Vec3_eqb
        (NVec64.nvec (NVec64.LonLat_ToNVector Sin Cos
                        (NVec64.mkLonLat 0 0x1.921fb54442d18p+0)))
        (NVec64.vec3 0 0 1)
      = NVec64.zero64 (Cos 0x1.921fb54442d18p+0)))%float.
Proof.
  pose proof PI_RGT_0 as Hpi. pose proof PI_4 as Hpi4.
  split; [split; [| split] | split; [| split]];
    [ | | | | | intros Sin Cos; split;
                [reflexivity
                | apply Binary64Facts.ToNVector64_at_half_pi_eqb] ].
  - eexists. split.
    + apply NewLonLat_accepts. lra.
    + unfold LonLat_ToNVector, Sin, Cos. simpl.
      rewrite Mod_small by lra.
      replace (0 * PI / 180 + PI - PI) with 0 by field.
      replace (90 * PI / 180) with (PI / 2) by field.
      rewrite sin_0, cos_0, sin_PI2, cos_PI2.
      do 2 f_equal; ring.
  - rewrite NewLonLat_rejects by lra. reflexivity.
  - lra.
  - vm_compute. reflexivity.
  - vm_compute. reflexivity.
Qed.

(** C9. Whenever [NewLonLat] returns an error, the pointer it returns with
    it is not [nil] and points to the zero value, longitude [0] and latitude
    [0], whatever the input longitude; the error is the
    [InvalidLatitudeError] of the input latitude in degrees.  This holds
    over the reals and on binary64 alike. *)
Theorem NewLonLat_error_zero_value :
  (forall (londeg latdeg : R) (e : error),
      snd (NewLonLat londeg latdeg) = Some e ->
      fst (NewLonLat londeg latdeg) = Some (mkLonLat 0 0) /\
      e = InvalidLatitudeError latdeg) /\
  (forall (londeg latdeg : PrimFloat.float) (e : NVec64.error),
      snd (NVec64.NewLonLat londeg latdeg) = Some e ->
      fst (NVec64.NewLonLat londeg latdeg)
        = Some (NVec64.mkLonLat 0%float 0%float) /\
      e = NVec64.InvalidLatitudeError latdeg).
Proof.
  split.
  - intros londeg latdeg e. unfold NewLonLat. cbv zeta.
    destruct (ltb (latdeg * PI / 180) (- 0.5 * PI)
              || gtb (latdeg * PI / 180) (0.5 * PI)); simpl.
    + intros H. injection H as <-. split; reflexivity.
    + discriminate.
  - intros londeg latdeg e. unfold NVec64.NewLonLat. cbv zeta.
    match goal with |- context [if ?c then _ else _] => destruct c end; simpl.
    + intros H. injection H as <-. split; reflexivity.
    + discriminate.
Qed.

(** The rejection of [(10, 91)], over the reals and on binary64: the
    normalized longitude is not in the value returned. *)
Lemma NewLonLat_error_zero_value_witness :
  (snd (NewLonLat 10 91) = Some (InvalidLatitudeError 91) /\
   fst (NewLonLat 10 91) = Some (mkLonLat 0 0)) /\
  (snd (NVec64.NewLonLat 10 91) = Some (NVec64.InvalidLatitudeError 91) /\
   fst (NVec64.NewLonLat 10 91) = Some (NVec64.mkLonLat 0 0))%float.
Proof.
  assert (H : snd (NewLonLat 10 91) = Some (InvalidLatitudeError 91)).
  { rewrite NewLonLat_rejects; [reflexivity |].
    right. pose proof PI_RGT_0. lra. }
  assert (H64 : snd (NVec64.NewLonLat 10 91)
                = Some (NVec64.InvalidLatitudeError 91))
    by (vm_compute; reflexivity).
  split; (split; [assumption |]).
  - exact (proj1 (proj1 NewLonLat_error_zero_value 10 91 _ H)).
  - exact (proj1 (proj2 NewLonLat_error_zero_value 10%float 91%float _ H64)).
Defined.

End LonLatFacts.

(** ** The rotation matrix *)

Module RotationFacts.
Import PrimFloat.
Import GoMath NVec NVecSpec VecFacts.

(** The code's construction is the one with [east = (0,0,1) x nv]. *)
Lemma RotationMatrix_east_first_eq (nv : NVector) :
  RotationMatrix nv = RotationMatrix_east_first nv.
Proof. reflexivity. Qed.

(** The specification's east and north vectors are the opposites of the
    code's. *)
Lemma spec_east_opposite (nv : NVector) :
  cross (nvec nv) (vec3 0 0 1) = negate (cross (vec3 0 0 1) (nvec nv)).
Proof. unfold cross, negate. simpl. f_equal; ring. Qed.

Lemma Magnitude_unit_y : Magnitude (vec3 0 1 0) = 1.
Proof.
  unfold Magnitude, Sqrt. simpl.
  replace (0 * 0 + 1 * 1 + 0 * 0) with 1 by ring. apply sqrt_1.
Qed.

Lemma Magnitude_unit_z : Magnitude (vec3 0 0 1) = 1.
Proof.
  unfold Magnitude, Sqrt. simpl.
  replace (0 * 0 + 0 * 0 + 1 * 1) with 1 by ring. apply sqrt_1.
Qed.

Lemma Magnitude_negate (v : Vec3) : Magnitude (negate v) = Magnitude v.
Proof. unfold Magnitude, negate. simpl. f_equal. ring. Qed.

(** At [nv = (1,0,0)], on the equator at longitude 0, the code's east
    vector is [(0,1,0)] and its north vector [(0,0,1)]. *)
Lemma RotationMatrix_at_x :
  RotationMatrix (mkNVector (vec3 1 0 0)) =
  mat3 (vec3 0 0 (-1)) (vec3 0 1 0) (vec3 1 0 0).
Proof.
  rewrite RotationMatrix_east_first_eq. unfold RotationMatrix_east_first.
  cbv zeta.
  replace (cross (vec3 0 0 1) (nvec (mkNVector (vec3 1 0 0))))
    with (vec3 0 1 0) by (unfold cross; simpl; f_equal; ring).
  replace (cross (nvec (mkNVector (vec3 1 0 0))) (vec3 0 1 0))
    with (vec3 0 0 1) by (unfold cross; simpl; f_equal; ring).
  unfold of_columns, normalized.
  rewrite Magnitude_unit_y, Magnitude_unit_z. simpl.
  f_equal; f_equal; field.
Qed.

(** At the same point the construction worded by the specification has
    the opposite first and second columns. *)
Lemma RotationMatrix_spec_at_x :
  RotationMatrix_spec (mkNVector (vec3 1 0 0)) =
  mat3 (vec3 0 0 (-1)) (vec3 0 (-1) 0) (vec3 (-1) 0 0).
Proof.
  unfold RotationMatrix_spec. cbv zeta.
  replace (cross (nvec (mkNVector (vec3 1 0 0))) (vec3 0 0 1))
    with (negate (vec3 0 1 0)) by (unfold cross, negate; simpl; f_equal; ring).
  replace (cross (nvec (mkNVector (vec3 1 0 0))) (negate (vec3 0 1 0)))
    with (negate (vec3 0 0 1)) by (unfold cross, negate; simpl; f_equal; ring).
  unfold of_columns, normalized.
  rewrite !Magnitude_negate, Magnitude_unit_y, Magnitude_unit_z. simpl.
  f_equal; f_equal; field.
Qed.

(** C4 as stated fails at [nv = (1,0,0)]: with [east = nv x (0,0,1)] the
    east column would be [(0,-1,0)] and the north column [(0,0,-1)], while
    the code returns east [(0,1,0)] and north [(0,0,1)]; so it is over the
    reals and on binary64. *)
Lemma RotationMatrix_spec_differs :
  (e1 (r1 (RotationMatrix (mkNVector (vec3 1 0 0)))) = 1 /\
   e1 (r1 (RotationMatrix_spec (mkNVector (vec3 1 0 0)))) = -1 /\
   e0 (r2 (RotationMatrix (mkNVector (vec3 1 0 0)))) = 1 /\
   e0 (r2 (RotationMatrix_spec (mkNVector (vec3 1 0 0)))) = -1 /\
   RotationMatrix (mkNVector (vec3 1 0 0))
   <> RotationMatrix_spec (mkNVector (vec3 1 0 0))) /\
  (NVec64.e1 (NVec64.r1 (NVec64.RotationMatrix NVec64.nv_x)) = 1 /\
   NVec64.e1 (NVec64.r1 (NVec64.RotationMatrix_spec NVec64.nv_x)) = -1 /\
   NVec64.e0 (NVec64.r2 (NVec64.RotationMatrix NVec64.nv_x)) = 1 /\
   NVec64.e0 (NVec64.r2 (NVec64.RotationMatrix_spec NVec64.nv_x)) = -1)%float.
Proof.
  split.
  - rewrite RotationMatrix_at_x, RotationMatrix_spec_at_x. simpl.
    repeat split; try reflexivity.
    intros H. injection H as H1 H2. lra.
  - repeat split; vm_compute; reflexivity.
Qed.

(** C4, amended. [RotationMatrix(nv)] is built from [east = (0,0,1) x nv]
    and [north = nv x east], each divided by its magnitude: row [i] of the
    matrix holds the [i]-th components of (north, east, -nv), so its columns
    are the unit north vector, the unit east vector and [-nv].  Its
    transpose maps a vector of the Earth frame to its components along
    north, east and down.  The construction is the same on binary64. *)
Theorem RotationMatrix_columns :
  (forall nv : NVector,
      let east := cross (vec3 0 0 1) (nvec nv) in
      let north := cross (nvec nv) east in
      RotationMatrix nv =
        of_columns (normalized north) (normalized east) (negate (nvec nv)) /\
      col0 (RotationMatrix nv) = normalized north /\
      col1 (RotationMatrix nv) = normalized east /\
      col2 (RotationMatrix nv) = negate (nvec nv) /\
      (forall v : Vec3,
          Mult (Transpose (RotationMatrix nv)) v =
          vec3 (dot (normalized north) v) (dot (normalized east) v)
               (dot (negate (nvec nv)) v))) /\
  (forall nv : NVec64.NVector,
      let east := NVec64.cross (NVec64.vec3 0 0 1) (NVec64.nvec nv) in
      let north := NVec64.cross (NVec64.nvec nv) east in
      NVec64.RotationMatrix nv =
        NVec64.of_columns (NVec64.normalized north) (NVec64.normalized east)
                          (NVec64.negate (NVec64.nvec nv)))%float.
Proof.
  split.
  - intros nv east north.
    repeat (split; [reflexivity |]).
    intros v. unfold Mult, Transpose, dot, RotationMatrix. simpl.
    fold east. fold north. f_equal; ring.
  - intros nv. reflexivity.
Qed.

End RotationFacts.

(** ** n-vector to p-vector and back *)

Module EllipsoidFacts.
Import GoMath NVec NVecSpec.

(** Brings the outermost [let] of the left-hand side into the context. *)
Ltac pull_let x :=
  lazymatch goal with
  | |- (let y := ?v in @?f y) = ?rhs =>
      change (let y := v in f y = rhs); intro x; cbv beta;
      cbn [e0 e1 e2 nvec pvec a b] in x
  end.

(** Replaces the local definition [x] by the value [val] it is equal to. *)
Ltac settle x val tac :=
  let H := fresh "H" in
  assert (H : x = val) by (subst x; tac);
  clearbody x; subst x.

Lemma Cbrt_1 : Cbrt 1 = 1.
Proof.
  unfold Cbrt. destruct (Rlt_dec 0 1) as [_ | H]; [| lra].
  unfold Rpower. rewrite ln_1, Rmult_0_r. apply exp_0.
Qed.

Lemma sqrt_quarter : sqrt (1 / 2 * (1 / 2)) = 1 / 2.
Proof. apply sqrt_square. lra. Qed.

(** On a sphere of radius [r] the p-vector of a unit n-vector is the
    n-vector scaled by [r]. *)
Lemma ToPVector_sphere (r x y z : R) :
  0 < r -> x * x + y * y + z * z = 1 ->
  ToPVector (mkNVector (vec3 x y z)) (mkEllipsoid r r) =
  mkPVector (vec3 (r * x) (r * y) (r * z)).
Proof.
  intros Hr Hunit. cbv beta delta [ToPVector].
  pull_let v. subst v.
  pull_let absq. settle absq 1 ltac:(field; lra).
  pull_let coeff.
  assert (Hc : coeff = r).
  { subst coeff. unfold Sqrt.
    replace (z * z + 1 * y * y + 1 * x * x) with 1 by lra.
    rewrite sqrt_1. field. }
  clearbody coeff. subst coeff.
  cbn [e0 e1 e2 nvec]. f_equal. f_equal; ring.
Qed.

(** On a sphere of radius [r], the closed form maps a point [(X, Y, Z)] of
    the sphere to [(-X/r, -Y/r, Z/r)]: the first two components come back
    with the opposite sign. *)
Lemma PVector_ToNVector_sphere (r X Y Z : R) :
  0 < r -> X * X + Y * Y + Z * Z = r * r ->
  PVector_ToNVector (mkPVector (vec3 X Y Z)) (mkEllipsoid r r) =
  mkNVector (vec3 (- (X / r)) (- (Y / r)) (Z / r)).
Proof.
  intros Hr Hsphere. cbv beta delta [PVector_ToNVector].
  pull_let p_. subst p_.
  pull_let eccen.
  settle eccen 0 ltac:(unfold Sqrt;
    replace (1 - r * r / (r * r)) with 0 by (field; lra); apply sqrt_0).
  pull_let eccen2. settle eccen2 0 ltac:(ring).
  pull_let eccen4. settle eccen4 0 ltac:(ring).
  pull_let a2.
  pull_let q.
  pull_let p.
  pull_let r_.
  assert (Hpq : p + q = 1).
  { subst p q a2.
    replace ((Y * Y + X * X) / (r * r) + (1 - 0) / (r * r) * Z * Z)
      with ((X * X + Y * Y + Z * Z) / (r * r)) by (field; lra).
    rewrite Hsphere. field. lra. }
  settle r_ (1 / 6) ltac:(rewrite Hpq; field).
  pull_let s. settle s 0 ltac:(unfold Rdiv; ring).
  pull_let t.
  settle t 1 ltac:(unfold Sqrt;
    replace (0 * (2 + 0)) with 0 by ring; rewrite sqrt_0;
    replace (1 + 0 + 0) with 1 by ring; apply Cbrt_1).
  pull_let u. settle u (1 / 2) ltac:(field).
  pull_let v.
  settle v (1 / 2) ltac:(unfold Sqrt;
    replace (1 / 2 * (1 / 2) + 0 * q) with (1 / 2 * (1 / 2)) by ring;
    apply sqrt_quarter).
  pull_let w. settle w 0 ltac:(unfold Rdiv; ring).
  pull_let k.
  settle k 1 ltac:(unfold Sqrt;
    replace (1 / 2 + 1 / 2 + 0 * 0) with 1 by field; rewrite sqrt_1; ring).
  pull_let d.
  assert (Hxy : 0 <= Y * Y + X * X).
  { pose proof (Rle_0_sqr X). pose proof (Rle_0_sqr Y).
    unfold Rsqr in *. lra. }
  assert (Hd : d * d = Y * Y + X * X).
  { subst d. unfold Sqrt.
    replace (1 * sqrt (Y * Y + X * X) / (1 + 0) *
             (1 * sqrt (Y * Y + X * X) / (1 + 0)))
      with (sqrt (Y * Y + X * X) * sqrt (Y * Y + X * X)) by field.
    apply sqrt_sqrt. exact Hxy. }
  pull_let coeff.
  assert (Hc : coeff = 1 / r).
  { subst coeff. rewrite Hd. unfold Sqrt.
    replace (Y * Y + X * X + Z * Z) with (r * r) by lra.
    rewrite sqrt_square by lra. reflexivity. }
  clearbody coeff d. subst coeff.
  pull_let kke2. settle kke2 1 ltac:(field).
  cbn [e0 e1 e2 pvec]. f_equal. f_equal; field; lra.
Qed.

(** On a sphere, converting a unit n-vector [(x, y, z)] to a p-vector and
    back returns [(-x, -y, z)]. *)
Lemma sphere_round_trip (r x y z : R) :
  0 < r -> x * x + y * y + z * z = 1 ->
  PVector_ToNVector
    (ToPVector (mkNVector (vec3 x y z)) (mkEllipsoid r r)) (mkEllipsoid r r)
  = mkNVector (vec3 (- x) (- y) z).
Proof.
  intros Hr Hunit. rewrite ToPVector_sphere by assumption.
  rewrite PVector_ToNVector_sphere; [| assumption | nra].
  f_equal. f_equal; field; lra.
Qed.

(** On every ellipsoid with [a >= b > 0] the p-vector of the n-vector
    [(1,0,0)], on the equator, is [(a, 0, 0)]. *)
Lemma ToPVector_at_x (a_ b_ : R) :
  0 < b_ -> b_ <= a_ ->
  ToPVector (mkNVector (vec3 1 0 0)) (mkEllipsoid a_ b_) =
  mkPVector (vec3 a_ 0 0).
Proof.
  intros Hb Hab. cbv beta delta [ToPVector].
  pull_let v. subst v.
  pull_let absq.
  pull_let coeff.
  assert (Hc : coeff = b_ * b_ / a_).
  { subst coeff absq. unfold Sqrt.
    replace (0 * 0 + a_ * a_ / (b_ * b_) * 0 * 0 + a_ * a_ / (b_ * b_) * 1 * 1)
      with (a_ / b_ * (a_ / b_)) by (field; lra).
    rewrite sqrt_square.
    - field. lra.
    - apply Rmult_le_pos; [lra |]. left. apply Rinv_0_lt_compat. lra. }
  clearbody coeff. subst coeff absq.
  cbn [e0 e1 e2 nvec]. f_equal. f_equal; field; lra.
Qed.

(** The closed form maps the equator point [(a, 0, 0)] to [(-1, 0, 0)]. *)
Lemma PVector_ToNVector_at_x (a_ b_ : R) :
  0 < b_ -> b_ <= a_ ->
  PVector_ToNVector (mkPVector (vec3 a_ 0 0)) (mkEllipsoid a_ b_) =
  mkNVector (vec3 (-1) 0 0).
Proof.
  intros Hb Hab.
  set (E := 1 - b_ * b_ / (a_ * a_)).
  assert (Hratio : 0 < b_ * b_ / (a_ * a_) <= 1).
  { split.
    - apply Rdiv_lt_0_compat; nra.
    - apply Rmult_le_reg_r with (a_ * a_); [nra |].
      unfold Rdiv. rewrite Rmult_assoc, Rinv_l by nra. nra. }
  assert (HE : 0 <= E < 1) by (unfold E; lra).
  cbv beta delta [PVector_ToNVector].
  pull_let p_. subst p_.
  pull_let eccen. fold E in eccen.
  pull_let eccen2.
  settle eccen2 E ltac:(unfold Sqrt; apply sqrt_sqrt; lra).
  clear eccen. clearbody E. clear Hratio.
  pull_let eccen4.
  pull_let a2.
  pull_let q. settle q 0 ltac:(unfold Rdiv; ring).
  pull_let p. settle p 1 ltac:(subst a2; field; lra).
  pull_let r_.
  pull_let s. settle s 0 ltac:(unfold Rdiv; ring).
  pull_let t.
  settle t 1 ltac:(unfold Sqrt;
    replace (0 * (2 + 0)) with 0 by ring; rewrite sqrt_0;
    replace (1 + 0 + 0) with 1 by ring; apply Cbrt_1).
  pull_let u.
  assert (Hu : u = (1 - E * E) / 2) by (subst u r_ eccen4; field).
  clearbody u. clear r_.
  assert (Hupos : 0 < u) by (rewrite Hu; nra).
  pull_let v.
  assert (Hv : v = u).
  { subst v. unfold Sqrt.
    replace (u * u + eccen4 * 0) with (u * u) by ring.
    apply sqrt_square. lra. }
  clearbody v. subst v.
  pull_let w.
  settle w E ltac:(replace 0.5 with (1 / 2) by lra; field; lra).
  pull_let k.
  assert (Hk : k = 1 - E).
  { subst k. unfold Sqrt.
    replace (u + u + E * E) with 1 by (rewrite Hu; field).
    rewrite sqrt_1. reflexivity. }
  clearbody k. subst k.
  pull_let d.
  assert (Hd : d = (1 - E) * a_).
  { subst d. unfold Sqrt.
    replace (0 * 0 + a_ * a_) with (a_ * a_) by ring.
    rewrite sqrt_square by lra. field. lra. }
  clearbody d. subst d.
  pull_let coeff.
  assert (Hc : coeff = 1 / ((1 - E) * a_)).
  { subst coeff. unfold Sqrt.
    replace ((1 - E) * a_ * ((1 - E) * a_) + 0 * 0)
      with ((1 - E) * a_ * ((1 - E) * a_)) by ring.
    rewrite sqrt_square; [reflexivity |].
    apply Rmult_le_pos; lra. }
  clearbody coeff. subst coeff.
  pull_let kke2. settle kke2 (1 - E) ltac:(field; lra).
  cbn [e0 e1 e2 pvec]. f_equal. f_equal; field; lra.
Qed.

(** On every ellipsoid with [a >= b > 0], the round trip of the n-vector
    [(1,0,0)] returns the antipodal [(-1,0,0)]. *)
Lemma round_trip_at_x (a_ b_ : R) :
  0 < b_ -> b_ <= a_ ->
  PVector_ToNVector
    (ToPVector (mkNVector (vec3 1 0 0)) (mkEllipsoid a_ b_))
    (mkEllipsoid a_ b_)
  = mkNVector (vec3 (-1) 0 0).
Proof.
  intros Hb Hab. rewrite ToPVector_at_x by assumption.
  apply PVector_ToNVector_at_x; assumption.
Qed.

(** C6, at the unit n-vector [(1,0,0)] and the WGS84 ellipsoid
    ([a = 6378137], [b = 6356752.314245]): the round trip returns
    [(-1, 0, 0)], whose first component is at distance [2] from that of the
    input; so it does on the unit sphere. *)
Theorem round_trip_at_x_on_WGS84 :
  let nv := mkNVector (vec3 1 0 0) in
  let e := mkEllipsoid 6378137 6356752.314245 in
  b e > 0 /\ a e >= b e /\ dot (nvec nv) (nvec nv) = 1 /\
  PVector_ToNVector (ToPVector nv e) e = mkNVector (vec3 (-1) 0 0) /\
  Rabs (e0 (nvec (PVector_ToNVector (ToPVector nv e) e)) - e0 (nvec nv)) = 2 /\
  ~ Rabs (e0 (nvec (PVector_ToNVector (ToPVector nv e) e)) - e0 (nvec nv))
    <= 1e-9 /\
  PVector_ToNVector (ToPVector nv (mkEllipsoid 1 1)) (mkEllipsoid 1 1)
    = mkNVector (vec3 (-1) 0 0).
Proof.
  cbv zeta.
  rewrite !round_trip_at_x by lra. simpl.
  assert (Habs : Rabs (-1 - 1) = 2).
  { rewrite Rabs_left by lra. ring. }
  rewrite Habs. unfold dot. simpl.
  repeat split; lra.
Qed.

End EllipsoidFacts.

(** ** Interpolation *)

Module InterpolateFacts.
Import Binary64Facts.

(** Over the reals the two end points are reproduced. *)
Lemma Interpolate_endpoints_real (p q : NVec.NVector) :
  NVec.Interpolate p q 0 = p /\ NVec.Interpolate p q 1 = q.
Proof.
  destruct p as [[x y z]], q as [[x' y' z']].
  unfold NVec.Interpolate, NVec.interpLinear. simpl.
  split; f_equal; f_equal; field.
Qed.

Import PrimFloat FloatOps SpecFloat.
Local Open Scope float_scope.

(** C3 as stated fails on binary64: interpolating from [(1,0,0)] to
    [(0.1, 0.7, sqrt 0.5)] at [frac = 1] returns the first component
    [0x1.9999999999998p-4], one unit in the last place below [0.1]; Go's
    [==] on the two vectors is false. *)
Lemma Interpolate64_at_1_not_exact :
  NVec64.Interpolate NVec64.nv_x NVec64.nv_q 1 =
    NVec64.mkNVector
      (NVec64.vec3 0x1.9999999999998p-4 0x1.6666666666666p-1
                   0x1.6a09e667f3bcdp-1) /\
  NVec64.Vec3_eqb (NVec64.nvec (NVec64.Interpolate NVec64.nv_x NVec64.nv_q 1))
                  (NVec64.nvec NVec64.nv_q) = false /\
  NVec64.Interpolate NVec64.nv_x NVec64.nv_q 1 <> NVec64.nv_q.
Proof.
  split; [vm_compute; reflexivity |].
  split; [vm_compute; reflexivity |].
  vm_compute. intros H. discriminate H.
Qed.

(** At [frac = 0] a negative zero in the first vector comes back as a
    positive zero: equal for Go's [==], not bit for bit. *)
Lemma Interpolate64_at_0_sign_of_zero :
  NVec64.interpLinear 0 0 1 (-0) 1 = 0 /\
  Prim2SF (NVec64.interpLinear 0 0 1 (-0) 1) = S754_zero false /\
  Prim2SF (-0) = S754_zero true.
Proof. repeat split; vm_compute; reflexivity. Qed.

(** C3, amended.  In exact arithmetic [Interpolate(a, b, 0) = a] and
    [Interpolate(a, b, 1) = b].  In binary64, [Interpolate(a, b, 0)] is [a]
    bit for bit whenever no difference [b_i - a_i] overflows or is NaN and
    no [a_i] is a negative zero, and [Interpolate(a, b, 1)] is, component
    by component, the rounded sum of the rounded difference [b_i - a_i] and
    [a_i]. *)
Theorem Interpolate_endpoints :
  (forall p q : NVec.NVector,
      NVec.Interpolate p q 0%R = p /\ NVec.Interpolate p q 1%R = q) /\
  (forall p q : NVec64.NVector,
      NVec64.plain_difference (NVec64.nvec p) (NVec64.nvec q) = true ->
      NVec64.Interpolate p q 0 = p) /\
  (forall p q : NVec64.NVector,
      NVec64.Interpolate p q 1 =
        NVec64.mkNVector
          (NVec64.vec3
             (NVec64.e0 (NVec64.nvec q) - NVec64.e0 (NVec64.nvec p)
              + NVec64.e0 (NVec64.nvec p))
             (NVec64.e1 (NVec64.nvec q) - NVec64.e1 (NVec64.nvec p)
              + NVec64.e1 (NVec64.nvec p))
             (NVec64.e2 (NVec64.nvec q) - NVec64.e2 (NVec64.nvec p)
              + NVec64.e2 (NVec64.nvec p)))).
Proof.
  split; [exact Interpolate_endpoints_real |]. split.
  - intros [[x y z]] [[x' y' z']]. unfold NVec64.plain_difference. simpl.
    intros H.
    apply andb_prop in H. destruct H as [H H2].
    apply andb_prop in H. destruct H as [H0 H1].
    apply andb_prop in H0. destruct H0 as [F0 Z0].
    apply andb_prop in H1. destruct H1 as [F1 Z1].
    apply andb_prop in H2. destruct H2 as [F2 Z2].
    apply negb_true_iff in Z0, Z1, Z2.
    unfold NVec64.Interpolate. simpl.
    rewrite !interpLinear64_at_0 by assumption. reflexivity.
  - intros p q. unfold NVec64.Interpolate.
    rewrite !interpLinear64_at_1. reflexivity.
Qed.

(** The two binary64 end points from [(1,0,0)] to [(0.1, 0.7, sqrt 0.5)]:
    the first is reproduced, the second is the rounded sum. *)
Lemma Interpolate_endpoints_witness :
  NVec64.plain_difference (NVec64.nvec NVec64.nv_x) (NVec64.nvec NVec64.nv_q)
    = true /\
  NVec64.Interpolate NVec64.nv_x NVec64.nv_q 0 = NVec64.nv_x.
Proof.
  assert (H : NVec64.plain_difference (NVec64.nvec NVec64.nv_x)
                (NVec64.nvec NVec64.nv_q) = true) by (vm_compute; reflexivity).
  split; [exact H |].
  exact (proj1 (proj2 Interpolate_endpoints) NVec64.nv_x NVec64.nv_q H).
Defined.

End InterpolateFacts.

(** ** Longitude and latitude to n-vector and back, over the reals *)

Module RoundTripFacts.
Import GoMath NVec NVecSpec GoMathFacts.

Lemma Atan2_sin_cos (x k : R) :
  - (PI / 2) < x < PI / 2 -> 0 < k -> Atan2 (sin x * k) (cos x * k) = x.
Proof.
  intros [Hl Hu] Hk.
  pose proof (cos_gt_0 x Hl Hu) as Hc.
  unfold Atan2.
  destruct (Rlt_dec 0 (cos x * k)) as [_ | Hn].
  - replace (sin x * k / (cos x * k)) with (tan x)
      by (unfold tan; field; lra).
    apply atan_tan. lra.
  - exfalso. apply Hn. apply Rmult_lt_0_compat; assumption.
Qed.

(** The horizontal radius of the n-vector of [(lon, lat)] is [cos lat]. *)
Lemma horizontal_radius (lon lat : R) :
  0 <= cos lat ->
  sqrt (cos lon * cos lat * (cos lon * cos lat)
        + sin lon * cos lat * (sin lon * cos lat)) = cos lat.
Proof.
  intros Hc.
  replace (cos lon * cos lat * (cos lon * cos lat)
           + sin lon * cos lat * (sin lon * cos lat))
    with (cos lat * cos lat * (Rsqr (sin lon) + Rsqr (cos lon)))
    by (unfold Rsqr; ring).
  rewrite sin2_cos2, Rmult_1_r. apply sqrt_square. exact Hc.
Qed.

(** Over the reals, away from the two poles and for a longitude in the
    open half circle, the round trip is the identity: the final
    renormalization [Mod (lon + PI/2) PI - PI/2] leaves such a longitude
    as it is. *)
Lemma ToLonLat_ToNVector_interior (lon lat : R) :
  - (PI / 2) < lon < PI / 2 ->
  - (PI / 2) < lat < PI / 2 ->
  ToLonLat (LonLat_ToNVector (mkLonLat lon lat)) = mkLonLat lon lat.
Proof.
  intros Hlon Hlat.
  pose proof (cos_gt_0 lat (proj1 Hlat) (proj2 Hlat)) as Hc.
  unfold ToLonLat, LonLat_ToNVector, Sin, Cos, Sqrt. simpl.
  rewrite horizontal_radius by lra.
  assert (Hself : Atan2 (sin lat) (cos lat) = lat).
  { pose proof (Atan2_sin_cos lat 1 Hlat Rlt_0_1) as H.
    rewrite !Rmult_1_r in H. exact H. }
  rewrite Hself.
  rewrite Atan2_sin_cos by assumption.
  rewrite Mod_small by lra.
  f_equal. ring.
Qed.

(** Over the reals, at the north pole the n-vector is [(0, 0, 1)] for
    every longitude, and the longitude that comes back is [0]. *)
Lemma ToLonLat_ToNVector_north_pole (lon : R) :
  LonLat_ToNVector (mkLonLat lon (PI / 2)) = mkNVector (vec3 0 0 1) /\
  ToLonLat (mkNVector (vec3 0 0 1)) = mkLonLat 0 (PI / 2).
Proof.
  pose proof PI_RGT_0 as Hpi.
  split.
  - unfold LonLat_ToNVector, Sin, Cos. simpl.
    rewrite sin_PI2, cos_PI2. do 2 f_equal; ring.
  - unfold ToLonLat, Sqrt. simpl.
    replace (0 * 0 + 0 * 0) with 0 by ring. rewrite sqrt_0.
    unfold Atan2.
    destruct (Rlt_dec 0 0) as [H | _]; [lra |].
    destruct (Rlt_dec 0 1) as [_ | H]; [| lra].
    rewrite Mod_small by lra.
    f_equal. ring.
Qed.

(** The interior round trip at longitude [1] and latitude [1] radian. *)
Lemma ToLonLat_ToNVector_interior_witness :
  (- (PI / 2) < 1 < PI / 2) /\
  ToLonLat (LonLat_ToNVector (mkLonLat 1 1)) = mkLonLat 1 1.
Proof.
  assert (H : - (PI / 2) < 1 < PI / 2) by (pose proof PI2_1; lra).
  split; [exact H |].
  exact (ToLonLat_ToNVector_interior 1 1 H H).
Defined.

End RoundTripFacts.

(** ** More on [Mod] and [Atan2] *)

Module AngleFacts.
Import GoMath GoMathFacts.

(** One divisor above the range [[0, y)], [Mod] subtracts the divisor
    once. *)
Lemma Mod_second_period (x y : R) : 0 < y -> y <= x < 2 * y -> Mod x y = x - y.
Proof.
  intros Hy [Hl Hu]. unfold Mod, Rtrunc.
  assert (Hq : 1 <= x / y < 2).
  { split.
    - apply Rmult_le_reg_r with y; [assumption |].
      unfold Rdiv. rewrite Rmult_assoc, Rinv_l by lra. lra.
    - apply Rmult_lt_reg_r with y; [assumption |].
      unfold Rdiv. rewrite Rmult_assoc, Rinv_l by lra. lra. }
  destruct (Rle_dec 0 (x / y)) as [_ | Hn]; [| lra].
  replace (Int_part (x / y)) with 1%Z.
  - simpl. ring.
  - apply Int_part_spec. simpl. lra.
Qed.

(** For a non-negative dividend, adding the divisor does not change the
    remainder. *)
Lemma Mod_add_period (x y : R) : 0 <= x -> 0 < y -> Mod (x + y) y = Mod x y.
Proof.
  intros Hx Hy. unfold Mod, Rtrunc.
  assert (Hq : 0 <= x / y).
  { unfold Rdiv. apply Rmult_le_pos; [assumption |].
    left. apply Rinv_0_lt_compat. assumption. }
  assert (Hsum : (x + y) / y = x / y + 1) by (field; lra).
  rewrite Hsum.
  destruct (Rle_dec 0 (x / y + 1)) as [_ | Hn]; [| lra].
  destruct (Rle_dec 0 (x / y)) as [_ | Hn]; [| contradiction].
  replace (Int_part (x / y + 1)) with (Int_part (x / y) + 1)%Z.
  - rewrite plus_IZR. simpl. ring.
  - apply Int_part_spec. rewrite plus_IZR. simpl.
    destruct (base_Int_part (x / y)) as [Hlo Hhi]. lra.
Qed.

(** The angle returned by [Atan2] lies in [(-PI, PI]]. *)
Lemma Atan2_range (y x : R) : - PI < Atan2 y x <= PI.
Proof.
  pose proof PI_RGT_0 as Hpi. pose proof (atan_bound (y / x)) as Hb.
  unfold Atan2.
  destruct (Rlt_dec 0 x) as [Hx | Hx]; [lra |].
  destruct (Rlt_dec x 0) as [Hx' | Hx'].
  - assert (Hxi : / x < 0) by (apply Rinv_lt_0_compat; assumption).
    destruct (Rle_dec 0 y) as [Hy | Hy].
    + assert (y / x <= 0) by (unfold Rdiv; nra).
      pose proof (atan_nonpos _ H). lra.
    + assert (0 < y / x) by (unfold Rdiv; nra).
      pose proof (atan_increasing _ _ H) as Hinc. rewrite atan_0 in Hinc. lra.
  - destruct (Rlt_dec 0 y); [lra |]. destruct (Rlt_dec y 0); lra.
Qed.

(** With a non-negative second argument it lies in [[-PI/2, PI/2]]. *)
Lemma Atan2_right_half (y x : R) :
  0 <= x -> - (PI / 2) <= Atan2 y x <= PI / 2.
Proof.
  intros Hx0.
  pose proof PI_RGT_0 as Hpi. pose proof (atan_bound (y / x)) as Hb.
  unfold Atan2.
  destruct (Rlt_dec 0 x) as [Hx | Hx]; [lra |].
  destruct (Rlt_dec x 0) as [Hx' | Hx']; [lra |].
  destruct (Rlt_dec 0 y); [lra |]. destruct (Rlt_dec y 0); lra.
Qed.

(** [Atan2] recovers the angle of a point given in polar form, over the
    whole range [(-PI, PI]]. *)
Lemma Atan2_polar (k theta : R) :
  0 < k -> - PI < theta <= PI ->
  Atan2 (k * sin theta) (k * cos theta) = theta.
Proof.
  intros Hk [Hl Hu].
  pose proof PI_RGT_0 as Hpi.
  destruct (Rlt_dec (- (PI / 2)) theta) as [H1 | H1];
    [destruct (Rlt_dec theta (PI / 2)) as [H2 | H2] |].
  - (* right half plane *)
    pose proof (cos_gt_0 theta H1 H2) as Hc.
    unfold Atan2.
    destruct (Rlt_dec 0 (k * cos theta)) as [_ | Hn]; [| exfalso; nra].
    replace (k * sin theta / (k * cos theta)) with (tan theta)
      by (unfold tan; field; lra).
    apply atan_tan. lra.
  - destruct (Req_dec theta (PI / 2)) as [-> | Hne].
    + (* straight up *)
      rewrite sin_PI2, cos_PI2. unfold Atan2.
      replace (k * 0) with 0 by ring. replace (k * 1) with k by ring.
      destruct (Rlt_dec 0 0) as [H | _]; [lra |].
      destruct (Rlt_dec 0 k) as [_ | H]; [reflexivity | lra].
    + (* upper left quadrant *)
      assert (Hc : cos theta < 0) by (apply cos_lt_0; lra).
      assert (Hs : 0 <= sin theta) by (apply sin_ge_0; lra).
      unfold Atan2.
      destruct (Rlt_dec 0 (k * cos theta)) as [Hp | _]; [exfalso; nra |].
      destruct (Rlt_dec (k * cos theta) 0) as [_ | Hn]; [| exfalso; nra].
      destruct (Rle_dec 0 (k * sin theta)) as [_ | Hn]; [| exfalso; nra].
      replace (k * sin theta / (k * cos theta)) with (tan (theta - PI)).
      * rewrite atan_tan by lra. ring.
      * unfold tan. rewrite sin_minus, cos_minus, sin_PI, cos_PI.
        field. lra.
  - destruct (Req_dec theta (- (PI / 2))) as [-> | Hne].
    + (* straight down *)
      rewrite sin_neg, cos_neg, sin_PI2, cos_PI2. unfold Atan2.
      replace (k * 0) with 0 by ring. replace (k * - (1)) with (- k) by ring.
      destruct (Rlt_dec 0 0) as [H | _]; [lra |].
      destruct (Rlt_dec 0 (- k)) as [H | _]; [lra |].
      destruct (Rlt_dec (- k) 0) as [_ | H]; [reflexivity | lra].
    + (* lower left quadrant *)
      assert (Hc : cos theta < 0).
      { rewrite <- cos_neg. apply cos_lt_0; lra. }
      assert (Hs : sin theta < 0) by (apply sin_lt_0_var; lra).
      unfold Atan2.
      destruct (Rlt_dec 0 (k * cos theta)) as [Hp | _]; [exfalso; nra |].
      destruct (Rlt_dec (k * cos theta) 0) as [_ | Hn]; [| exfalso; nra].
      destruct (Rle_dec 0 (k * sin theta)) as [Hp | _]; [exfalso; nra |].
      replace (k * sin theta / (k * cos theta)) with (tan (theta + PI)).
      * rewrite atan_tan by lra. ring.
      * unfold tan. rewrite neg_sin, neg_cos. field. lra.
Qed.

End AngleFacts.

(** ** The linear algebra primitives *)

Module AlgebraFacts.
Import GoMath NVec NVecSpec VecFacts.

(** The cross product is orthogonal to both factors, changes sign when the
    factors are swapped, and its squared length is given by Lagrange's
    identity [|u x v|^2 + (u . v)^2 = |u|^2 |v|^2]. *)
Theorem cross_orthogonal_and_lagrange (u v : Vec3) :
  dot u (cross u v) = 0 /\
  dot v (cross u v) = 0 /\
  cross u v = negate (cross v u) /\
  dot (cross u v) (cross u v) + dot u v * dot u v = dot u u * dot v v.
Proof.
  unfold dot, cross, negate. simpl.
  split; [ring |]. split; [ring |]. split; [f_equal; ring | ring].
Qed.

Lemma Magnitude_sqr (v : Vec3) : Magnitude v * Magnitude v = dot v v.
Proof.
  unfold Magnitude, Sqrt. apply sqrt_sqrt. apply dot_self_nonneg.
Qed.

Lemma dot_self_zero (v : Vec3) : dot v v = 0 -> v = vec3 0 0 0.
Proof.
  destruct v as [x y z]. unfold dot. simpl. intros H.
  assert (x = 0) by nra. assert (y = 0) by nra. assert (z = 0) by nra.
  subst. reflexivity.
Qed.

(** [Magnitude] is the square root of the dot product of the vector with
    itself: it vanishes on the zero vector only, and it bounds the dot
    product of two vectors (Cauchy and Schwarz). *)
Theorem Magnitude_norm (u v : Vec3) :
  Magnitude v * Magnitude v = dot v v /\
  (Magnitude v = 0 <-> v = vec3 0 0 0) /\
  Rabs (dot u v) <= Magnitude u * Magnitude v.
Proof.
  split; [apply Magnitude_sqr |]. split.
  - split.
    + intros H. apply dot_self_zero. rewrite <- Magnitude_sqr, H. ring.
    + intros ->. apply Magnitude_zero.
  - pose proof (Magnitude_nonneg u) as Hu.
    pose proof (Magnitude_nonneg v) as Hv.
    pose proof (dot_self_nonneg (cross u v)) as Hc.
    assert (Hl : dot (cross u v) (cross u v) + dot u v * dot u v
                 = dot u u * dot v v)
      by (unfold dot, cross; simpl; ring).
    rewrite <- (Magnitude_sqr u), <- (Magnitude_sqr v) in Hl.
    apply Rabs_le.
    assert (Hp : 0 <= Magnitude u * Magnitude v) by (apply Rmult_le_pos; lra).
    split; nra.
Qed.

(** Transposing twice gives the matrix back, the transpose is the adjoint
    of the matrix for the dot product, and multiplying by the transpose
    takes the dot products with the columns. *)
Theorem Transpose_adjoint (m : Matrix3) (v w : Vec3) :
  Transpose (Transpose m) = m /\
  dot (Mult m v) w = dot v (Mult (Transpose m) w) /\
  Mult (Transpose m) v = vec3 (dot (col0 m) v) (dot (col1 m) v) (dot (col2 m) v).
Proof.
  destruct m as [[m00 m01 m02] [m10 m11 m12] [m20 m21 m22]].
  unfold Transpose, Mult, dot, col0, col1, col2. simpl.
  split; [reflexivity |]. split; [ring | f_equal; ring].
Qed.

End AlgebraFacts.

(** ** Longitude and latitude: construction and conversion *)

Module LonLatMore.
Import GoMath NVec NVecSpec GoMathFacts AngleFacts.

(** [NewLonLat] returns an error exactly when the latitude is below -90 or
    above 90 degrees. *)
Theorem NewLonLat_error_iff (londeg latdeg : R) :
  (snd (NewLonLat londeg latdeg) = Some (InvalidLatitudeError latdeg)
   <-> latdeg < -90 \/ 90 < latdeg) /\
  (snd (NewLonLat londeg latdeg) = None <-> -90 <= latdeg <= 90).
Proof.
  pose proof PI_RGT_0 as Hpi.
  assert (Hscale : forall c : R, c * PI / 180 = c * (PI / 180))
    by (intros; field).
  unfold NewLonLat. cbv zeta. unfold ltb, gtb.
  destruct (Rlt_dec (latdeg * PI / 180) (- 0.5 * PI)) as [H1 | H1];
    destruct (Rgt_dec (latdeg * PI / 180) (0.5 * PI)) as [H2 | H2];
    simpl; rewrite Hscale in *;
    (split; split; intros H; try discriminate; try reflexivity; try nra).
Qed.

(** The longitude that [NewLonLat] stores has period 360 degrees in its
    argument, from -180 degrees upwards. *)
Theorem NewLonLat_period (londeg latdeg : R) :
  -180 <= londeg ->
  NewLonLat (londeg + 360) latdeg = NewLonLat londeg latdeg.
Proof.
  intros Hlon. pose proof PI_RGT_0 as Hpi.
  unfold NewLonLat. cbv zeta.
  replace ((londeg + 360) * PI / 180 + PI)
    with (londeg * PI / 180 + PI + 2 * PI) by field.
  rewrite Mod_add_period; [reflexivity | | lra].
  assert (0 <= (londeg + 180) * PI) by (apply Rmult_le_pos; lra). lra.
Qed.

Lemma NewLonLat_period_witness :
  -180 <= 10 /\ NewLonLat (10 + 360) 45 = NewLonLat 10 45.
Proof.
  assert (H : -180 <= 10) by lra.
  split; [exact H |]. exact (NewLonLat_period 10 45 H).
Defined.

(** The n-vector of a longitude and latitude always has length one. *)
Theorem LonLat_ToNVector_unit (ll : LonLat) :
  is_unit (nvec (LonLat_ToNVector ll)) /\
  Magnitude (nvec (LonLat_ToNVector ll)) = 1.
Proof.
  assert (Hu : is_unit (nvec (LonLat_ToNVector ll))).
  { unfold is_unit, LonLat_ToNVector, dot, Sin, Cos. simpl.
    pose proof (sin2_cos2 (Lon ll)) as H1.
    pose proof (sin2_cos2 (Lat ll)) as H2. unfold Rsqr in *. nra. }
  split; [exact Hu |].
  unfold Magnitude, Sqrt. unfold is_unit, dot in Hu. rewrite Hu. apply sqrt_1.
Qed.

(** The renormalization of the longitude in [ToLonLat]: the angle
    [Atan2(y, x)] is kept when it is below [PI/2] and lowered by [PI]
    otherwise. *)
Lemma ToLonLat_lon (nv : NVector) :
  (Atan2 (e1 (nvec nv)) (e0 (nvec nv)) < PI / 2 ->
   Lon (ToLonLat nv) = Atan2 (e1 (nvec nv)) (e0 (nvec nv))) /\
  (PI / 2 <= Atan2 (e1 (nvec nv)) (e0 (nvec nv)) ->
   Lon (ToLonLat nv) = Atan2 (e1 (nvec nv)) (e0 (nvec nv)) - PI).
Proof.
  pose proof PI_RGT_0 as Hpi.
  unfold ToLonLat. cbv zeta. simpl.
  pose proof (Atan2_range (e1 (nvec nv)) (e0 (nvec nv))) as Hr.
  set (t := Atan2 (e1 (nvec nv)) (e0 (nvec nv))) in *.
  split; intros H.
  - rewrite Mod_small by lra. ring.
  - rewrite Mod_second_period by lra. ring.
Qed.

(** Whatever the vector, [ToLonLat] returns a latitude in [[-PI/2, PI/2]]
    and a longitude in [(-PI, PI/2)], inside the range [[-PI, PI)] that
    its comment announces. *)
Theorem ToLonLat_range (nv : NVector) :
  lat_in_range (ToLonLat nv) /\
  - PI < Lon (ToLonLat nv) < PI / 2 /\
  lon_in_range (ToLonLat nv).
Proof.
  pose proof PI_RGT_0 as Hpi.
  pose proof (Atan2_range (e1 (nvec nv)) (e0 (nvec nv))) as Hr.
  destruct (ToLonLat_lon nv) as [Hlow Hhigh].
  assert (Hlon : - PI < Lon (ToLonLat nv) < PI / 2).
  { destruct (Rlt_dec (Atan2 (e1 (nvec nv)) (e0 (nvec nv))) (PI / 2))
      as [H | H].
    - rewrite Hlow by assumption. lra.
    - rewrite Hhigh by lra. lra. }
  split; [| split; [exact Hlon | unfold lon_in_range; lra]].
  unfold lat_in_range, ToLonLat. cbv zeta. simpl.
  apply Atan2_right_half. unfold Sqrt. apply sqrt_pos.
Qed.

(** The n-vector of [(lon, lat)] converted back, for a latitude away from
    the poles: a longitude in [(-PI, PI/2)] comes back as it is, a
    longitude in [[PI/2, PI]] comes back lowered by [PI]; the latitude
    always comes back. *)
Theorem ToLonLat_ToNVector_all_longitudes (lon lat : R) :
  - PI < lon <= PI ->
  - (PI / 2) < lat < PI / 2 ->
  Lat (ToLonLat (LonLat_ToNVector (mkLonLat lon lat))) = lat /\
  (lon < PI / 2 ->
   Lon (ToLonLat (LonLat_ToNVector (mkLonLat lon lat))) = lon) /\
  (PI / 2 <= lon ->
   Lon (ToLonLat (LonLat_ToNVector (mkLonLat lon lat))) = lon - PI).
Proof.
  intros Hlon Hlat.
  pose proof PI_RGT_0 as Hpi.
  pose proof (cos_gt_0 lat (proj1 Hlat) (proj2 Hlat)) as Hc.
  assert (Hraw : Atan2 (e1 (nvec (LonLat_ToNVector (mkLonLat lon lat))))
                       (e0 (nvec (LonLat_ToNVector (mkLonLat lon lat))))
                 = lon).
  { unfold LonLat_ToNVector, Sin, Cos. simpl.
    rewrite (Rmult_comm (sin lon)), (Rmult_comm (cos lon)).
    apply Atan2_polar; assumption. }
  destruct (ToLonLat_lon (LonLat_ToNVector (mkLonLat lon lat)))
    as [Hlow Hhigh].
  rewrite Hraw in Hlow, Hhigh.
  split; [| split; assumption].
  unfold ToLonLat, LonLat_ToNVector, Sin, Cos, Sqrt. simpl.
  replace (cos lon * cos lat * (cos lon * cos lat)
           + sin lon * cos lat * (sin lon * cos lat))
    with (cos lat * cos lat * (Rsqr (sin lon) + Rsqr (cos lon)))
    by (unfold Rsqr; ring).
  rewrite sin2_cos2, Rmult_1_r, sqrt_square by lra.
  pose proof (Atan2_polar 1 lat Rlt_0_1 ltac:(lra)) as H.
  rewrite !Rmult_1_l in H. exact H.
Qed.

(** The round trip at longitude [2] and latitude [1] radian: the longitude
    that comes back is [2 - PI]. *)
Lemma ToLonLat_ToNVector_all_longitudes_witness :
  (- PI < 2 <= PI) /\ (- (PI / 2) < 1 < PI / 2) /\ PI / 2 <= 2 /\
  Lon (ToLonLat (LonLat_ToNVector (mkLonLat 2 1))) = 2 - PI.
Proof.
  pose proof PI2_1 as H1. pose proof PI_4 as H4.
  pose proof PI2_3_2 as H32.
  assert (Hlon : - PI < 2 <= PI) by lra.
  assert (Hlat : - (PI / 2) < 1 < PI / 2) by lra.
  assert (Hhigh : PI / 2 <= 2) by lra.
  split; [exact Hlon |]. split; [exact Hlat |]. split; [exact Hhigh |].
  exact (proj2 (proj2 (ToLonLat_ToNVector_all_longitudes 2 1 Hlon Hlat))
           Hhigh).
Defined.

End LonLatMore.

(** ** Spherical distance as an angle *)

Module DistanceMore.
Import GoMath NVec NVecSpec GoMathFacts VecFacts AngleFacts.

(** The distance between a point and its antipode is half the
    circumference, [PI * R]: a zero cross product does not mean a zero
    distance. *)
Theorem SphericalDistance_antipodal (nv : NVector) (R_ : R) :
  0 < dot (nvec nv) (nvec nv) ->
  SphericalDistance nv (mkNVector (negate (nvec nv))) R_ = PI * R_.
Proof.
  intros Hpos. unfold SphericalDistance. cbv zeta. simpl.
  replace (cross (nvec nv) (negate (nvec nv))) with (vec3 0 0 0)
    by (unfold cross, negate; simpl; f_equal; ring).
  rewrite Magnitude_zero.
  replace (dot (nvec nv) (negate (nvec nv))) with (- dot (nvec nv) (nvec nv))
    by (unfold dot, negate; simpl; ring).
  unfold Atan2.
  destruct (Rlt_dec 0 (- dot (nvec nv) (nvec nv))) as [H | _]; [lra |].
  destruct (Rlt_dec (- dot (nvec nv) (nvec nv)) 0) as [_ | H]; [| lra].
  destruct (Rle_dec 0 0) as [_ | H]; [| lra].
  unfold Rdiv. rewrite Rmult_0_l, atan_0. ring.
Qed.

Lemma SphericalDistance_antipodal_witness :
  0 < dot (vec3 0 0 1) (vec3 0 0 1) /\
  SphericalDistance (mkNVector (vec3 0 0 1))
    (mkNVector (negate (vec3 0 0 1))) 6371000 = PI * 6371000.
Proof.
  assert (H : 0 < dot (nvec (mkNVector (vec3 0 0 1)))
                      (nvec (mkNVector (vec3 0 0 1))))
    by (unfold dot; simpl; lra).
  split; [exact H |].
  exact (SphericalDistance_antipodal (mkNVector (vec3 0 0 1)) 6371000 H).
Defined.

(** The distance measures the angle: from a unit vector [u], the point at
    angle [theta] in [[0, PI]] towards an orthogonal unit vector [w] is at
    distance [theta * R]. *)
Theorem SphericalDistance_along (u w : Vec3) (theta R_ : R) :
  is_unit u -> is_unit w -> dot u w = 0 -> 0 <= theta <= PI ->
  SphericalDistance (mkNVector u) (mkNVector (along u w theta)) R_
  = theta * R_.
Proof.
  intros Hu Hw Huw Ht. unfold is_unit in Hu, Hw.
  pose proof PI_RGT_0 as Hpi.
  unfold SphericalDistance. cbv zeta. simpl.
  assert (Hm : Magnitude (cross u (along u w theta)) = sin theta).
  { unfold Magnitude, Sqrt.
    replace (e0 (cross u (along u w theta)) * e0 (cross u (along u w theta))
             + e1 (cross u (along u w theta)) * e1 (cross u (along u w theta))
             + e2 (cross u (along u w theta)) * e2 (cross u (along u w theta)))
      with (sin theta * sin theta
            * (dot u u * dot w w - dot u w * dot u w))
      by (unfold cross, along, dot; simpl; ring).
    rewrite Hu, Hw, Huw.
    replace (sin theta * sin theta * (1 * 1 - 0 * 0))
      with (sin theta * sin theta) by ring.
    apply sqrt_square. apply sin_ge_0; lra. }
  assert (Hd : dot u (along u w theta) = cos theta).
  { replace (dot u (along u w theta))
      with (dot u u * cos theta + dot u w * sin theta)
      by (unfold along, dot; simpl; ring).
    rewrite Hu, Huw. ring. }
  rewrite Hm, Hd.
  pose proof (Atan2_polar 1 theta Rlt_0_1 ltac:(lra)) as H.
  rewrite !Rmult_1_l in H. rewrite H. reflexivity.
Qed.

Lemma SphericalDistance_along_witness :
  is_unit (vec3 1 0 0) /\ is_unit (vec3 0 0 1) /\
  dot (vec3 1 0 0) (vec3 0 0 1) = 0 /\ 0 <= 1 <= PI /\
  SphericalDistance (mkNVector (vec3 1 0 0))
    (mkNVector (along (vec3 1 0 0) (vec3 0 0 1) 1)) 6371000 = 1 * 6371000.
Proof.
  assert (Hu : is_unit (vec3 1 0 0)) by (unfold is_unit, dot; simpl; ring).
  assert (Hw : is_unit (vec3 0 0 1)) by (unfold is_unit, dot; simpl; ring).
  assert (Huw : dot (vec3 1 0 0) (vec3 0 0 1) = 0)
    by (unfold dot; simpl; ring).
  assert (Ht : 0 <= 1 <= PI) by (pose proof PI2_1; lra).
  repeat (split; [assumption |]).
  exact (SphericalDistance_along (vec3 1 0 0) (vec3 0 0 1) 1 6371000
           Hu Hw Huw Ht).
Defined.

End DistanceMore.

(** ** Forward positioning *)

Module ForwardFacts.
Import GoMath NVec NVecSpec GoMathFacts VecFacts AngleFacts.

(** The local east and north vectors that [Forward] builds. *)
Lemma Forward_shape (nv : NVector) (az distance radius : R) :
  let east := cross (nvec nv) (vec3 0 0 (-1)) in
  let north := cross (nvec nv) east in
  Forward nv az distance radius
  = mkNVector (along (nvec nv) (along north east az) (distance / radius)).
Proof. reflexivity. Qed.

(** The direction of travel is orthogonal to the n-vector, and for a unit
    n-vector [(x, y, z)] its squared length is [1 - z^2]. *)
Lemma travel_direction (nv : Vec3) (az : R) :
  let east := cross nv (vec3 0 0 (-1)) in
  let north := cross nv east in
  dot nv (along north east az) = 0 /\
  (is_unit nv ->
   dot (along north east az) (along north east az) = 1 - e2 nv * e2 nv).
Proof.
  intros east north. split.
  - unfold north, east, along, cross, dot. simpl. ring.
  - unfold is_unit. intros Hu.
    replace (dot (along north east az) (along north east az))
      with ((e0 nv * e0 nv + e1 nv * e1 nv)
            * (dot nv nv * (cos az * cos az) + sin az * sin az))
      by (unfold north, east, along, cross, dot; simpl; ring).
    rewrite Hu. pose proof (sin2_cos2 az) as H. unfold Rsqr in H.
    unfold dot in Hu. nra.
Qed.

(** From a unit vector [u], the point [along u w theta] for [w] orthogonal
    to [u] is seen at the angle [Atan2 (|w| sin theta) (cos theta)]. *)
Lemma distance_along_scaled (u w : Vec3) (q theta R_ : R) :
  is_unit u -> dot u w = 0 -> dot w w = q -> 0 <= theta <= PI ->
  SphericalDistance (mkNVector u) (mkNVector (along u w theta)) R_
  = Atan2 (sqrt q * sin theta) (cos theta) * R_.
Proof.
  intros Hu Huw Hw Ht. unfold is_unit in Hu.
  assert (Hq : 0 <= q) by (rewrite <- Hw; apply dot_self_nonneg).
  assert (Hs : 0 <= sin theta) by (apply sin_ge_0; lra).
  unfold SphericalDistance. cbv zeta. simpl.
  assert (Hm : Magnitude (cross u (along u w theta)) = sqrt q * sin theta).
  { unfold Magnitude, Sqrt.
    replace (e0 (cross u (along u w theta)) * e0 (cross u (along u w theta))
             + e1 (cross u (along u w theta)) * e1 (cross u (along u w theta))
             + e2 (cross u (along u w theta)) * e2 (cross u (along u w theta)))
      with (sin theta * sin theta
            * (dot u u * dot w w - dot u w * dot u w))
      by (unfold cross, along, dot; simpl; ring).
    rewrite Hu, Hw, Huw.
    replace (sin theta * sin theta * (1 * q - 0 * 0))
      with (q * (sin theta * sin theta)) by ring.
    rewrite sqrt_mult by nra.
    rewrite sqrt_square by assumption. reflexivity. }
  assert (Hd : dot u (along u w theta) = cos theta).
  { replace (dot u (along u w theta))
      with (dot u u * cos theta + dot u w * sin theta)
      by (unfold along, dot; simpl; ring).
    rewrite Hu, Huw. ring. }
  rewrite Hm, Hd. reflexivity.
Qed.

(** For a unit n-vector [(x, y, z)], the point that [Forward] returns has
    the component [cos sigma] along the start, [sigma = distance / radius],
    and the squared length [1 - (z sin sigma)^2]: it is a unit vector only
    on the equator or when [sin sigma = 0]. *)
Theorem Forward_length (nv : NVector) (az distance radius : R) :
  is_unit (nvec nv) ->
  dot (nvec nv) (nvec (Forward nv az distance radius))
    = cos (distance / radius) /\
  dot (nvec (Forward nv az distance radius))
      (nvec (Forward nv az distance radius))
    = 1 - (e2 (nvec nv) * sin (distance / radius))
          * (e2 (nvec nv) * sin (distance / radius)).
Proof.
  intros Hu. rewrite Forward_shape. cbv zeta. cbn [nvec].
  destruct (travel_direction (nvec nv) az) as [Ho Hl].
  specialize (Hl Hu). unfold is_unit in Hu.
  set (v := along (cross (nvec nv) (cross (nvec nv) (vec3 0 0 (-1))))
                  (cross (nvec nv) (vec3 0 0 (-1))) az) in *.
  set (sg := distance / radius).
  split.
  - replace (dot (nvec nv) (along (nvec nv) v sg))
      with (dot (nvec nv) (nvec nv) * cos sg + dot (nvec nv) v * sin sg)
      by (unfold along, dot; simpl; ring).
    rewrite Hu, Ho. ring.
  - replace (dot (along (nvec nv) v sg) (along (nvec nv) v sg))
      with (dot (nvec nv) (nvec nv) * (cos sg * cos sg)
            + 2 * dot (nvec nv) v * (cos sg * sin sg)
            + dot v v * (sin sg * sin sg))
      by (unfold along, dot; simpl; ring).
    rewrite Hu, Ho, Hl.
    pose proof (sin2_cos2 sg) as H. unfold Rsqr in H. nra.
Qed.

Lemma Forward_length_witness :
  is_unit (vec3 0 0 1) /\
  dot (vec3 0 0 1) (nvec (Forward (mkNVector (vec3 0 0 1)) 0 1 1)) = cos (1 / 1).
Proof.
  assert (Hu : is_unit (nvec (mkNVector (vec3 0 0 1))))
    by (unfold is_unit, dot; simpl; ring).
  split; [exact Hu |].
  exact (proj1 (Forward_length (mkNVector (vec3 0 0 1)) 0 1 1 Hu)).
Defined.

(** The distance from a unit n-vector [(x, y, z)] to the point that
    [Forward] returns for [sigma = distance / radius] in [[0, PI]] is the
    angle [Atan2 (sqrt (1 - z^2) sin sigma) (cos sigma)] times the radius
    of the sphere; on the equator, [z = 0], that is the distance asked
    for. *)
Theorem Forward_distance (nv : NVector) (az distance radius : R) :
  is_unit (nvec nv) -> 0 < radius -> 0 <= distance <= PI * radius ->
  SphericalDistance nv (Forward nv az distance radius) radius
    = Atan2 (sqrt (1 - e2 (nvec nv) * e2 (nvec nv))
             * sin (distance / radius))
            (cos (distance / radius)) * radius /\
  (e2 (nvec nv) = 0 ->
   SphericalDistance nv (Forward nv az distance radius) radius = distance).
Proof.
  intros Hu Hr Hd.
  pose proof PI_RGT_0 as Hpi.
  assert (Hsg : 0 <= distance / radius <= PI).
  { split.
    - unfold Rdiv. apply Rmult_le_pos; [lra |].
      left. apply Rinv_0_lt_compat. assumption.
    - apply Rmult_le_reg_r with radius; [assumption |].
      unfold Rdiv. rewrite Rmult_assoc, Rinv_l by lra. lra. }
  destruct (travel_direction (nvec nv) az) as [Ho Hl].
  specialize (Hl Hu).
  assert (Hgen : SphericalDistance nv (Forward nv az distance radius) radius
            = Atan2 (sqrt (1 - e2 (nvec nv) * e2 (nvec nv))
                     * sin (distance / radius))
                    (cos (distance / radius)) * radius).
  { rewrite Forward_shape. cbv zeta. destruct nv as [u]. cbn [nvec] in *.
    apply distance_along_scaled; assumption. }
  split; [exact Hgen |].
  intros Hz. rewrite Hgen, Hz.
  replace (1 - 0 * 0) with 1 by ring. rewrite sqrt_1.
  pose proof (Atan2_polar 1 (distance / radius) Rlt_0_1 ltac:(lra)) as H.
  rewrite (Rmult_1_l (cos (distance / radius))) in H.
  rewrite H. field. lra.
Qed.

Lemma Forward_distance_witness :
  is_unit (vec3 1 0 0) /\ 0 < 6371000 /\ 0 <= 1000 <= PI * 6371000 /\
  SphericalDistance (mkNVector (vec3 1 0 0))
    (Forward (mkNVector (vec3 1 0 0)) 1 1000 6371000) 6371000 = 1000.
Proof.
  assert (Hu : is_unit (nvec (mkNVector (vec3 1 0 0))))
    by (unfold is_unit, dot; simpl; ring).
  assert (Hr : 0 < 6371000) by lra.
  assert (Hd : 0 <= 1000 <= PI * 6371000) by (pose proof PI2_1; lra).
  split; [exact Hu |]. split; [exact Hr |]. split; [exact Hd |].
  exact (proj2 (Forward_distance (mkNVector (vec3 1 0 0)) 1 1000 6371000
                  Hu Hr Hd) eq_refl).
Defined.

(** Edge cases of [Forward], for a radius other than zero: a distance of
    zero returns the starting vector, and from a vector on the polar axis
    the result stays on the axis whatever the azimuth, because the local
    east and north vectors vanish there. *)
Theorem Forward_edges (nv : NVector) (az distance radius : R) :
  radius <> 0 ->
  Forward nv az 0 radius = nv /\
  (e0 (nvec nv) = 0 -> e1 (nvec nv) = 0 ->
   Forward nv az distance radius
   = mkNVector (vec3 0 0 (e2 (nvec nv) * cos (distance / radius)))).
Proof.
  intros Hr. destruct nv as [[x y z]]. split.
  - unfold Forward, Cos, Sin, cross. simpl.
    replace (0 / radius) with 0 by (field; assumption).
    rewrite cos_0, sin_0. f_equal. f_equal; ring.
  - simpl. intros -> ->.
    unfold Forward, Cos, Sin, cross. simpl. f_equal. f_equal; ring.
Qed.

Lemma Forward_edges_witness :
  6371000 <> 0 /\
  Forward (mkNVector (vec3 0 0 1)) 2 1000 6371000
  = mkNVector (vec3 0 0 (1 * cos (1000 / 6371000))).
Proof.
  assert (Hr : 6371000 <> 0) by lra.
  split; [exact Hr |].
  exact (proj2 (Forward_edges (mkNVector (vec3 0 0 1)) 2 1000 6371000 Hr)
           eq_refl eq_refl).
Defined.

End ForwardFacts.

(** ** The rotation matrix as an orthonormal frame *)

Module RotationMore.
Import GoMath NVec NVecSpec VecFacts.

(** Away from the poles, the entries of the rotation matrix of a unit
    n-vector [(x, y, z)], with [t = 1 / sqrt (x^2 + y^2)]. *)
Lemma RotationMatrix_entries (x y z : R) :
  x * x + y * y + z * z = 1 -> 0 < x * x + y * y ->
  let t := / sqrt (x * x + y * y) in
  t * t * (x * x + y * y) = 1 /\
  RotationMatrix (mkNVector (vec3 x y z)) =
  mat3 (vec3 (- z * x * t) (- y * t) (- x))
       (vec3 (- z * y * t) (x * t) (- y))
       (vec3 ((x * x + y * y) * t) 0 (- z)).
Proof.
  intros Hu Hq t.
  assert (Hs : 0 < sqrt (x * x + y * y)) by (apply sqrt_lt_R0; assumption).
  assert (Hss : sqrt (x * x + y * y) * sqrt (x * x + y * y) = x * x + y * y)
    by (apply sqrt_sqrt; lra).
  split.
  - unfold t. rewrite <- Hss at 3. field. lra.
  - unfold RotationMatrix. cbv zeta. cbn [nvec].
    assert (He : Magnitude (cross (vec3 0 0 1) (vec3 x y z))
                 = sqrt (x * x + y * y)).
    { unfold Magnitude, Sqrt, cross. simpl. f_equal. ring. }
    assert (Hn : Magnitude (cross (vec3 x y z)
                              (cross (vec3 0 0 1) (vec3 x y z)))
                 = sqrt (x * x + y * y)).
    { unfold Magnitude, Sqrt, cross. simpl. f_equal.
      transitivity ((x * x + y * y) * (x * x + y * y + z * z)); [ring |].
      rewrite Hu. ring. }
    rewrite He, Hn. unfold cross, t. simpl.
    f_equal; f_equal; field; lra.
Qed.

(** For a unit n-vector away from the poles the rotation matrix is
    orthogonal: its transpose is its inverse on both sides, it keeps dot
    products, and its columns north, east, down form a right-handed frame
    (north x east = down). *)
Theorem RotationMatrix_orthonormal (nv : NVector) (v w : Vec3) :
  is_unit (nvec nv) ->
  0 < e0 (nvec nv) * e0 (nvec nv) + e1 (nvec nv) * e1 (nvec nv) ->
  Mult (Transpose (RotationMatrix nv)) (Mult (RotationMatrix nv) v) = v /\
  Mult (RotationMatrix nv) (Mult (Transpose (RotationMatrix nv)) v) = v /\
  dot (Mult (RotationMatrix nv) v) (Mult (RotationMatrix nv) w) = dot v w /\
  cross (col0 (RotationMatrix nv)) (col1 (RotationMatrix nv))
    = col2 (RotationMatrix nv).
Proof.
  destruct nv as [[x y z]]. destruct v as [v0 v1 v2], w as [w0 w1 w2].
  unfold is_unit, dot. cbn [nvec e0 e1 e2]. intros Hu Hq.
  destruct (RotationMatrix_entries x y z Hu Hq) as [Ht HR].
  rewrite HR. clear HR.
  set (t := / sqrt (x * x + y * y)) in *. clearbody t.
  unfold Mult, Transpose, dot, cross, col0, col1, col2. simpl.
  split; [f_equal; nsatz |].
  split; [f_equal; nsatz |].
  split; [nsatz | f_equal; nsatz].
Qed.

Lemma RotationMatrix_orthonormal_witness :
  is_unit (vec3 1 0 0) /\ 0 < 1 * 1 + 0 * 0 /\
  Mult (Transpose (RotationMatrix (mkNVector (vec3 1 0 0))))
       (Mult (RotationMatrix (mkNVector (vec3 1 0 0))) (vec3 1 2 3))
  = vec3 1 2 3.
Proof.
  assert (Hu : is_unit (nvec (mkNVector (vec3 1 0 0))))
    by (unfold is_unit, dot; simpl; ring).
  assert (Hq : 0 < e0 (nvec (mkNVector (vec3 1 0 0)))
                   * e0 (nvec (mkNVector (vec3 1 0 0)))
                   + e1 (nvec (mkNVector (vec3 1 0 0)))
                     * e1 (nvec (mkNVector (vec3 1 0 0))))
    by (simpl; lra).
  split; [exact Hu |]. split; [exact Hq |].
  exact (proj1 (RotationMatrix_orthonormal (mkNVector (vec3 1 0 0))
                  (vec3 1 2 3) (vec3 0 0 0) Hu Hq)).
Defined.

End RotationMore.

(** ** Azimuth *)

Module AzimuthFacts.
Import GoMath NVec NVecSpec GoMathFacts VecFacts AngleFacts.

(** On an ellipsoid with positive semi-axes, from a point off the polar
    axis to a vector other than zero, so that [ToPVector] and
    [RotationMatrix] divide by no zero, [Azimuth] is the angle
    [Atan2 (east part) (north part)] of the difference of the two
    p-vectors, taken along the unit east and north vectors at the first
    point: a bearing counted from north towards east, in [(-PI, PI]].
    From such a point to itself it is [0]. *)
Theorem Azimuth_components (nv nv2 : NVector) (ellps : Ellipsoid) :
  0 < a ellps -> 0 < b ellps ->
  0 < e0 (nvec nv) * e0 (nvec nv) + e1 (nvec nv) * e1 (nvec nv) ->
  0 < dot (nvec nv2) (nvec nv2) ->
  let east := cross (vec3 0 0 1) (nvec nv) in
  let north := cross (nvec nv) east in
  let delta := vsub (pvec (ToPVector nv2 ellps)) (pvec (ToPVector nv ellps)) in
  Azimuth nv nv2 ellps
    = Atan2 (dot (normalized east) delta) (dot (normalized north) delta) /\
  - PI < Azimuth nv nv2 ellps <= PI /\
  Azimuth nv nv ellps = 0.
Proof.
  intros _ _ _ _ east north delta.
  assert (Heq : forall p : NVector,
             Azimuth nv p ellps
             = Atan2 (dot (normalized east)
                        (vsub (pvec (ToPVector p ellps))
                              (pvec (ToPVector nv ellps))))
                     (dot (normalized north)
                        (vsub (pvec (ToPVector p ellps))
                              (pvec (ToPVector nv ellps))))).
  { intros p. unfold Azimuth. cbv zeta.
    unfold Mult, Transpose, RotationMatrix, dot, normalized, vsub. simpl.
    fold east. fold north. f_equal; ring. }
  split; [apply Heq |]. split.
  - rewrite Heq. apply Atan2_range.
  - rewrite Heq.
    replace (vsub (pvec (ToPVector nv ellps)) (pvec (ToPVector nv ellps)))
      with (vec3 0 0 0) by (unfold vsub; f_equal; ring).
    replace (dot (normalized east) (vec3 0 0 0)) with 0
      by (unfold dot; simpl; ring).
    replace (dot (normalized north) (vec3 0 0 0)) with 0
      by (unfold dot; simpl; ring).
    apply Atan2_0_nonneg. lra.
Qed.

(** The azimuth from [(1, 0, 0)] to [(0, 1, 0)] on an ellipsoid with the
    semi-axes of WGS84. *)
Lemma Azimuth_components_witness :
  0 < a (mkEllipsoid 6378137 6356752.314245) /\
  0 < b (mkEllipsoid 6378137 6356752.314245) /\
  0 < 1 * 1 + 0 * 0 /\
  0 < dot (vec3 0 1 0) (vec3 0 1 0) /\
  - PI < Azimuth (mkNVector (vec3 1 0 0)) (mkNVector (vec3 0 1 0))
           (mkEllipsoid 6378137 6356752.314245) <= PI /\
  Azimuth (mkNVector (vec3 1 0 0)) (mkNVector (vec3 1 0 0))
    (mkEllipsoid 6378137 6356752.314245) = 0.
Proof.
  assert (Ha : 0 < a (mkEllipsoid 6378137 6356752.314245)) by (simpl; lra).
  assert (Hb : 0 < b (mkEllipsoid 6378137 6356752.314245)) by (simpl; lra).
  assert (Hoff : 0 < e0 (nvec (mkNVector (vec3 1 0 0)))
                     * e0 (nvec (mkNVector (vec3 1 0 0)))
                     + e1 (nvec (mkNVector (vec3 1 0 0)))
                       * e1 (nvec (mkNVector (vec3 1 0 0))))
    by (simpl; lra).
  assert (Hnz : 0 < dot (nvec (mkNVector (vec3 0 1 0)))
                        (nvec (mkNVector (vec3 0 1 0))))
    by (unfold dot; simpl; lra).
  split; [exact Ha |]. split; [exact Hb |]. split; [exact Hoff |].
  split; [exact Hnz |].
  exact (proj2 (Azimuth_components (mkNVector (vec3 1 0 0))
                  (mkNVector (vec3 0 1 0))
                  (mkEllipsoid 6378137 6356752.314245) Ha Hb Hoff Hnz)).
Defined.



End AzimuthFacts.

(** ** More on intersection and interpolation *)

Module IntersectionMore.
Import GoMath NVec NVecSpec GoMathFacts VecFacts IntersectionFacts.

(** The point that [Intersection] returns lies on both great circles: it
    is orthogonal to the normal of each plane.  It is the candidate cross
    product or its opposite, never rescaled, so its length is that of the
    candidate and not one. *)
Theorem Intersection_on_both_circles (nv1a nv1b nv2a nv2b : NVector) :
  let i := nvec (fst (Intersection nv1a nv1b nv2a nv2b)) in
  dot i (cross (nvec nv1a) (nvec nv1b)) = 0 /\
  dot i (cross (nvec nv2a) (nvec nv2b)) = 0 /\
  dot i i = dot (candidate nv1a nv1b nv2a nv2b)
                (candidate nv1a nv1b nv2a nv2b).
Proof.
  intros i. unfold i. rewrite Intersection_point.
  destruct (ltb _ 0);
    unfold candidate, negate, cross, dot; simpl; repeat split; ring.
Qed.

(** [Interpolate] is the affine combination [a + frac (b - a)] of its two
    vectors.  Between two unit vectors its squared length is
    [1 - 2 frac (1 - frac) (1 - a . b)]: the result is not renormalized;
    half way between two antipodal vectors it is the zero vector. *)
Theorem Interpolate_length (p q : NVector) (frac : R) :
  is_unit (nvec p) -> is_unit (nvec q) ->
  nvec (Interpolate p q frac)
    = vec3 (e0 (nvec p) + frac * (e0 (nvec q) - e0 (nvec p)))
           (e1 (nvec p) + frac * (e1 (nvec q) - e1 (nvec p)))
           (e2 (nvec p) + frac * (e2 (nvec q) - e2 (nvec p))) /\
  dot (nvec (Interpolate p q frac)) (nvec (Interpolate p q frac))
    = 1 - 2 * frac * (1 - frac) * (1 - dot (nvec p) (nvec q)) /\
  Interpolate p (mkNVector (negate (nvec p))) (1 / 2)
    = mkNVector (vec3 0 0 0).
Proof.
  unfold is_unit. intros Hp Hq.
  assert (Hshape : nvec (Interpolate p q frac)
    = vec3 (e0 (nvec p) + frac * (e0 (nvec q) - e0 (nvec p)))
           (e1 (nvec p) + frac * (e1 (nvec q) - e1 (nvec p)))
           (e2 (nvec p) + frac * (e2 (nvec q) - e2 (nvec p)))).
  { unfold Interpolate, interpLinear. simpl. f_equal; field. }
  split; [exact Hshape |]. split.
  - rewrite Hshape. unfold dot in *. simpl. nsatz.
  - unfold Interpolate, interpLinear, negate. simpl. f_equal. f_equal; field.
Qed.

Lemma Interpolate_length_witness :
  is_unit (vec3 1 0 0) /\ is_unit (vec3 0 1 0) /\
  dot (nvec (Interpolate (mkNVector (vec3 1 0 0)) (mkNVector (vec3 0 1 0))
               (1 / 2)))
      (nvec (Interpolate (mkNVector (vec3 1 0 0)) (mkNVector (vec3 0 1 0))
               (1 / 2)))
  = 1 - 2 * (1 / 2) * (1 - 1 / 2) * (1 - dot (vec3 1 0 0) (vec3 0 1 0)).
Proof.
  assert (Hp : is_unit (nvec (mkNVector (vec3 1 0 0))))
    by (unfold is_unit, dot; simpl; ring).
  assert (Hq : is_unit (nvec (mkNVector (vec3 0 1 0))))
    by (unfold is_unit, dot; simpl; ring).
  split; [exact Hp |]. split; [exact Hq |].
  exact (proj1 (proj2 (Interpolate_length (mkNVector (vec3 1 0 0))
                         (mkNVector (vec3 0 1 0)) (1 / 2) Hp Hq))).
Defined.

End IntersectionMore.

(** ** More on the conversions with an ellipsoid *)

Module EllipsoidMore.
Import GoMath NVec NVecSpec VecFacts EllipsoidFacts.

(** The p-vector of any vector other than zero lies on the surface of the
    ellipsoid, whether or not the vector has length one. *)
Theorem ToPVector_on_ellipsoid (nv : NVector) (ellps : Ellipsoid) :
  0 < a ellps -> 0 < b ellps -> 0 < dot (nvec nv) (nvec nv) ->
  on_ellipsoid ellps (pvec (ToPVector nv ellps)).
Proof.
  destruct nv as [[x y z]], ellps as [a_ b_]. unfold dot. simpl.
  intros Ha Hb Hnz.
  unfold on_ellipsoid, ToPVector, Sqrt. simpl.
  set (D := z * z + a_ * a_ / (b_ * b_) * y * y + a_ * a_ / (b_ * b_) * x * x).
  assert (HD : b_ * b_ * D = b_ * b_ * (z * z) + a_ * a_ * (x * x + y * y))
    by (unfold D; field; lra).
  assert (HDpos : 0 < D).
  { apply Rmult_lt_reg_l with (b_ * b_); [nra |]. rewrite HD, Rmult_0_r.
    assert (Ha2 : 0 < a_ * a_) by nra. assert (Hb2 : 0 < b_ * b_) by nra.
    assert (Hz : 0 <= z * z) by nra. assert (Hxy : 0 <= x * x + y * y) by nra.
    destruct (Rlt_dec 0 (z * z)) as [Hzp | Hzn].
    - assert (0 < b_ * b_ * (z * z)) by (apply Rmult_lt_0_compat; assumption).
      assert (0 <= a_ * a_ * (x * x + y * y))
        by (apply Rmult_le_pos; lra).
      lra.
    - assert (0 < x * x + y * y) by lra.
      assert (0 < a_ * a_ * (x * x + y * y))
        by (apply Rmult_lt_0_compat; assumption).
      assert (0 <= b_ * b_ * (z * z)) by (apply Rmult_le_pos; lra).
      lra. }
  assert (Hs : 0 < sqrt D) by (apply sqrt_lt_R0; assumption).
  assert (Hss : sqrt D * sqrt D = D) by (apply sqrt_sqrt; lra).
  set (s := sqrt D) in *. clearbody s.
  assert (Hkey : b_ * b_ * (s * s)
                 = b_ * b_ * (z * z) + a_ * a_ * (x * x + y * y))
    by (rewrite Hss; exact HD).
  clear HD Hss HDpos. clearbody D. clear D.
  assert (Hbs : 0 < b_ * b_ * (s * s))
    by (repeat apply Rmult_lt_0_compat; assumption).
  apply Rmult_eq_reg_l with (b_ * b_ * (s * s)); [| lra].
  transitivity (b_ * b_ * (z * z) + a_ * a_ * (x * x + y * y));
    [field; lra | symmetry; rewrite Rmult_1_r; exact Hkey].
Qed.

Lemma ToPVector_on_ellipsoid_witness :
  let nv := mkNVector (vec3 3 0 4) in
  let e := mkEllipsoid 6378137 6356752.314245 in
  0 < a e /\ 0 < b e /\ 0 < dot (nvec nv) (nvec nv) /\
  on_ellipsoid e (pvec (ToPVector nv e)).
Proof.
  cbv zeta.
  assert (Ha : 0 < a (mkEllipsoid 6378137 6356752.314245)) by (simpl; lra).
  assert (Hb : 0 < b (mkEllipsoid 6378137 6356752.314245)) by (simpl; lra).
  assert (Hn : 0 < dot (nvec (mkNVector (vec3 3 0 4)))
                       (nvec (mkNVector (vec3 3 0 4))))
    by (unfold dot; simpl; lra).
  split; [exact Ha |]. split; [exact Hb |]. split; [exact Hn |].
  exact (ToPVector_on_ellipsoid (mkNVector (vec3 3 0 4))
           (mkEllipsoid 6378137 6356752.314245) Ha Hb Hn).
Defined.

(** The round trip on a sphere at the unit vector [(0.6, 0, 0.8)]. *)
Lemma sphere_round_trip_witness :
  0 < 6371000 /\ 0.6 * 0.6 + 0 * 0 + 0.8 * 0.8 = 1 /\
  PVector_ToNVector
    (ToPVector (mkNVector (vec3 0.6 0 0.8)) (mkEllipsoid 6371000 6371000))
    (mkEllipsoid 6371000 6371000)
  = mkNVector (vec3 (- (0.6)) (- 0) 0.8).
Proof.
  assert (Hr : 0 < 6371000) by lra.
  assert (Hu : 0.6 * 0.6 + 0 * 0 + 0.8 * 0.8 = 1) by lra.
  split; [exact Hr |]. split; [exact Hu |].
  exact (sphere_round_trip 6371000 0.6 0 0.8 Hr Hu).
Defined.

(** [PVector.ToNVector] ends with the scalar [k] and the squared
    eccentricity as follows. *)
Lemma PVector_ToNVector_from_k (pv : PVector) (ellps : Ellipsoid) :
  PVector_ToNVector pv ellps =
  let p_ := pvec pv in
  let k := ToNVector_k pv ellps in
  let eccen2 := ToNVector_eccen2 ellps in
  let d := k * Sqrt (e1 p_ * e1 p_ + e0 p_ * e0 p_) / (k + eccen2) in
  let coeff := 1 / Sqrt (d * d + e2 p_ * e2 p_) in
  let kke2 := k / (k + eccen2) in
  mkNVector (vec3 (- coeff * kke2 * e0 p_)
                  (- coeff * kke2 * e1 p_)
                  (coeff * e2 p_)).
Proof. reflexivity. Qed.

(** Where [PVector.ToNVector] divides by no zero and takes the square
    root of no negative number, the vector it returns has length one. *)
Theorem PVector_ToNVector_unit (pv : PVector) (ellps : Ellipsoid) :
  ToNVector_defined pv ellps ->
  is_unit (nvec (PVector_ToNVector pv ellps)).
Proof.
  intros Hdef.
  destruct Hdef as (_ & _ & _ & _ & _ & _ & _ & _ & Hke & HD).
  change (ToNVector_k pv ellps + ToNVector_eccen2 ellps <> 0) in Hke.
  change (0 < ToNVector_k pv ellps
              * Sqrt (e1 (pvec pv) * e1 (pvec pv)
                      + e0 (pvec pv) * e0 (pvec pv))
              / (ToNVector_k pv ellps + ToNVector_eccen2 ellps)
              * (ToNVector_k pv ellps
                 * Sqrt (e1 (pvec pv) * e1 (pvec pv)
                         + e0 (pvec pv) * e0 (pvec pv))
                 / (ToNVector_k pv ellps + ToNVector_eccen2 ellps))
              + e2 (pvec pv) * e2 (pvec pv)) in HD.
  rewrite PVector_ToNVector_from_k. cbv zeta.
  destruct pv as [[X Y Z]]. cbn [pvec e0 e1 e2] in *.
  set (k := ToNVector_k _ ellps) in *. clearbody k.
  set (ec := ToNVector_eccen2 ellps) in *. clearbody ec.
  unfold Sqrt in *.
  assert (HP : 0 <= Y * Y + X * X) by nra.
  assert (HsP : sqrt (Y * Y + X * X) * sqrt (Y * Y + X * X) = Y * Y + X * X)
    by (apply sqrt_sqrt; assumption).
  set (sP := sqrt (Y * Y + X * X)) in *. clearbody sP.
  assert (Hd : k * sP / (k + ec) = k / (k + ec) * sP) by (field; assumption).
  rewrite Hd in *.
  set (kk := k / (k + ec)) in *. clearbody kk.
  assert (HS : 0 < sqrt (kk * sP * (kk * sP) + Z * Z))
    by (apply sqrt_lt_R0; assumption).
  assert (HSS : sqrt (kk * sP * (kk * sP) + Z * Z)
                * sqrt (kk * sP * (kk * sP) + Z * Z)
                = kk * sP * (kk * sP) + Z * Z) by (apply sqrt_sqrt; lra).
  set (S := sqrt (kk * sP * (kk * sP) + Z * Z)) in *. clearbody S.
  assert (Hc : 1 / S * S = 1) by (field; lra).
  set (c := 1 / S) in *. clearbody c.
  unfold is_unit, dot. simpl. nsatz.
Qed.

(** Brings the outermost [let] of a goal into the context. *)
Ltac pull_in x := intro x; cbn [e0 e1 e2 nvec pvec a b] in x.

(** At the point [(a, 0, 0)] of the equator of an ellipsoid with
    [a >= b > 0], [PVector.ToNVector] divides by no zero and takes the root
    of no negative number. *)
Lemma ToNVector_defined_at_x (a_ b_ : R) :
  0 < b_ -> b_ <= a_ ->
  ToNVector_defined (mkPVector (vec3 a_ 0 0)) (mkEllipsoid a_ b_).
Proof.
  intros Hb Hab.
  assert (Hratio : 0 < b_ * b_ / (a_ * a_) <= 1).
  { split.
    - apply Rdiv_lt_0_compat; nra.
    - apply Rmult_le_reg_r with (a_ * a_); [nra |].
      unfold Rdiv. rewrite Rmult_assoc, Rinv_l by nra. nra. }
  set (E := 1 - b_ * b_ / (a_ * a_)).
  assert (HE : 0 <= E < 1) by (unfold E; lra).
  cbv beta delta [ToNVector_defined].
  pull_in p_. subst p_.
  pull_in eccen. fold E in eccen.
  pull_in eccen2.
  settle eccen2 E ltac:(unfold Sqrt; apply sqrt_sqrt; lra).
  clear eccen.
  pull_in eccen4.
  pull_in a2.
  pull_in q. settle q 0 ltac:(unfold Rdiv; ring).
  pull_in p. settle p 1 ltac:(subst a2; field; lra).
  pull_in r_.
  assert (Hr : r_ = (1 - E * E) / 6) by (subst r_ eccen4; field).
  clearbody r_.
  pull_in s. settle s 0 ltac:(unfold Rdiv; ring).
  pull_in t.
  settle t 1 ltac:(unfold Sqrt;
    replace (0 * (2 + 0)) with 0 by ring; rewrite sqrt_0;
    replace (1 + 0 + 0) with 1 by ring; apply Cbrt_1).
  pull_in u.
  assert (Hu : u = (1 - E * E) / 2) by (subst u; rewrite Hr; field).
  clearbody u.
  assert (Hupos : 0 < u) by (rewrite Hu; nra).
  pull_in v.
  assert (Hv : v = u).
  { subst v. unfold Sqrt.
    replace (u * u + eccen4 * 0) with (u * u) by ring.
    apply sqrt_square. lra. }
  clearbody v. subst v.
  pull_in w.
  settle w E ltac:(replace 0.5 with (1 / 2) by lra; field; lra).
  pull_in k.
  assert (Hk : k = 1 - E).
  { subst k. unfold Sqrt.
    replace (u + u + E * E) with 1 by (rewrite Hu; field).
    rewrite sqrt_1. reflexivity. }
  clearbody k. subst k.
  pull_in d.
  assert (Hd : d = (1 - E) * a_).
  { subst d. unfold Sqrt.
    replace (0 * 0 + a_ * a_) with (a_ * a_) by ring.
    rewrite sqrt_square by lra. field. lra. }
  clearbody d. subst d.
  assert (Hr3 : 0 < r_ * r_ * r_).
  { assert (0 < r_) by (rewrite Hr; nra).
    apply Rmult_lt_0_compat; [apply Rmult_lt_0_compat |]; assumption. }
  assert (Hdp : 0 < (1 - E) * a_) by (apply Rmult_lt_0_compat; lra).
  assert (Ha2 : 0 < a_ * a_) by nra.
  subst a2 eccen4. unfold Pow. cbn [e0 e1 e2 nvec pvec a b pow].
  fold E. clearbody E. clear Hratio.
  repeat split; try lra; try nra.
Qed.

Lemma PVector_ToNVector_unit_witness :
  ToNVector_defined (mkPVector (vec3 2 0 0)) (mkEllipsoid 2 1) /\
  is_unit (nvec (PVector_ToNVector (mkPVector (vec3 2 0 0))
                   (mkEllipsoid 2 1))).
Proof.
  assert (Hdef : ToNVector_defined (mkPVector (vec3 2 0 0))
                   (mkEllipsoid 2 1))
    by (apply ToNVector_defined_at_x; lra).
  split; [exact Hdef |].
  exact (PVector_ToNVector_unit (mkPVector (vec3 2 0 0)) (mkEllipsoid 2 1)
           Hdef).
Defined.

(** The scalar [k] on a sphere, at a point of the sphere, is [1], and the
    squared eccentricity is [0]. *)
Lemma ToNVector_k_sphere (r X Y Z : R) :
  0 < r -> X * X + Y * Y + Z * Z = r * r ->
  ToNVector_eccen2 (mkEllipsoid r r) = 0 /\
  ToNVector_k (mkPVector (vec3 X Y Z)) (mkEllipsoid r r) = 1.
Proof.
  intros Hr Hsphere.
  assert (Hecc : Sqrt (1 - r * r / (r * r)) = 0).
  { unfold Sqrt. replace (1 - r * r / (r * r)) with 0 by (field; lra).
    apply sqrt_0. }
  split.
  - unfold ToNVector_eccen2. cbv zeta. simpl. rewrite Hecc. ring.
  - cbv beta delta [ToNVector_k].
    pull_let p_. subst p_.
    pull_let eccen. settle eccen 0 ltac:(exact Hecc).
    pull_let eccen2. settle eccen2 0 ltac:(ring).
    pull_let eccen4. settle eccen4 0 ltac:(ring).
    pull_let a2.
    pull_let q.
    pull_let p.
    pull_let r_.
    assert (Hpq : p + q = 1).
    { subst p q a2.
      replace ((Y * Y + X * X) / (r * r) + (1 - 0) / (r * r) * Z * Z)
        with ((X * X + Y * Y + Z * Z) / (r * r)) by (field; lra).
      rewrite Hsphere. field. lra. }
    settle r_ (1 / 6) ltac:(rewrite Hpq; field).
    pull_let s. settle s 0 ltac:(unfold Rdiv; ring).
    pull_let t.
    settle t 1 ltac:(unfold Sqrt;
      replace (0 * (2 + 0)) with 0 by ring; rewrite sqrt_0;
      replace (1 + 0 + 0) with 1 by ring; apply Cbrt_1).
    pull_let u. settle u (1 / 2) ltac:(field).
    pull_let v.
    settle v (1 / 2) ltac:(unfold Sqrt;
      replace (1 / 2 * (1 / 2) + 0 * q) with (1 / 2 * (1 / 2)) by ring;
      apply sqrt_quarter).
    pull_let w. settle w 0 ltac:(unfold Rdiv; ring).
    unfold Sqrt.
    replace (1 / 2 + 1 / 2 + 0 * 0) with 1 by field. rewrite sqrt_1. ring.
Qed.

End EllipsoidMore.

(** ** Edge cases on binary64 *)

Module Binary64More.
Import PrimFloat FloatOps SpecFloat FloatAxioms.
Import Binary64Facts.
Local Open Scope float_scope.

Lemma zero64_finite (x : float) :
  NVec64.zero64 x = true -> NVec64.finite64 x = true.
Proof.
  unfold NVec64.zero64, NVec64.finite64.
  destruct (Prim2SF x); intros H; try discriminate; reflexivity.
Qed.

Lemma mul_zero_l (x y : float) :
  NVec64.zero64 x = true -> NVec64.finite64 y = true ->
  NVec64.zero64 (x * y) = true.
Proof.
  unfold NVec64.zero64, NVec64.finite64. rewrite mul_spec.
  destruct (Prim2SF x), (Prim2SF y); intros H1 H2;
    try discriminate; reflexivity.
Qed.

Lemma mul_zero_r (x y : float) :
  NVec64.finite64 x = true -> NVec64.zero64 y = true ->
  NVec64.zero64 (x * y) = true.
Proof.
  intros Hx Hy. rewrite mul_comm64. apply mul_zero_l; assumption.
Qed.

Lemma sub_zero (x y : float) :
  NVec64.zero64 x = true -> NVec64.zero64 y = true ->
  NVec64.zero64 (x - y) = true.
Proof.
  unfold NVec64.zero64. rewrite sub_spec.
  destruct (Prim2SF x) as [[|] | | |], (Prim2SF y) as [[|] | | |];
    intros H1 H2; try discriminate; reflexivity.
Qed.

Lemma add_zero (x y : float) :
  NVec64.zero64 x = true -> NVec64.zero64 y = true ->
  NVec64.zero64 (x + y) = true.
Proof.
  unfold NVec64.zero64. rewrite add_spec.
  destruct (Prim2SF x) as [[|] | | |], (Prim2SF y) as [[|] | | |];
    intros H1 H2; try discriminate; reflexivity.
Qed.

Lemma sqrt_zero (x : float) :
  NVec64.zero64 x = true -> NVec64.zero64 (sqrt x) = true.
Proof.
  unfold NVec64.zero64. rewrite sqrt_spec.
  destruct (Prim2SF x) as [[|] | | |]; intros H; try discriminate;
    reflexivity.
Qed.

(** Zero divided by zero is NaN. *)
Lemma div_zero_zero (x y : float) :
  NVec64.zero64 x = true -> NVec64.zero64 y = true -> x / y = nan.
Proof.
  unfold NVec64.zero64. intros Hx Hy. apply Prim2SF_inj. rewrite div_spec.
  destruct (Prim2SF x), (Prim2SF y); try discriminate; reflexivity.
Qed.

Lemma Magnitude_of_zeros (u v w : float) :
  NVec64.zero64 u = true -> NVec64.zero64 v = true ->
  NVec64.zero64 w = true ->
  NVec64.zero64 (NVec64.Magnitude (NVec64.vec3 u v w)) = true.
Proof.
  intros Hu Hv Hw. unfold NVec64.Magnitude. simpl.
  apply sqrt_zero.
  repeat apply add_zero; apply mul_zero_l;
    assumption || (apply zero64_finite; assumption).
Qed.

(** On the polar axis, where the two first components of the vector are
    zeros and the third is finite, the local east and north vectors vanish:
    the north and east columns of the rotation matrix are NaN, and the
    third column is the opposite of the vector. *)
Theorem RotationMatrix64_on_the_axis (x y z : float) :
  NVec64.zero64 x = true -> NVec64.zero64 y = true ->
  NVec64.finite64 z = true ->
  NVec64.RotationMatrix (NVec64.mkNVector (NVec64.vec3 x y z)) =
  NVec64.mat3 (NVec64.vec3 nan nan (- x))
              (NVec64.vec3 nan nan (- y))
              (NVec64.vec3 nan nan (- z)).
Proof.
  intros Hx Hy Hz.
  pose proof (zero64_finite x Hx) as Hxf.
  pose proof (zero64_finite y Hy) as Hyf.
  assert (H0 : NVec64.zero64 0 = true) by reflexivity.
  assert (HE0 : NVec64.zero64 (0 * z - 1 * y) = true).
  { apply sub_zero; [apply mul_zero_l; assumption |].
    rewrite one_times. assumption. }
  assert (HE1 : NVec64.zero64 (1 * x - 0 * z) = true).
  { apply sub_zero; [rewrite one_times; assumption |].
    apply mul_zero_l; assumption. }
  assert (HE2 : NVec64.zero64 (0 * y - 0 * x) = true).
  { apply sub_zero; apply mul_zero_l; assumption. }
  unfold NVec64.RotationMatrix, NVec64.cross. cbv zeta.
  cbn [NVec64.nvec NVec64.e0 NVec64.e1 NVec64.e2].
  set (E0 := 0 * z - 1 * y) in *.
  set (E1 := 1 * x - 0 * z) in *.
  set (E2 := 0 * y - 0 * x) in *.
  clearbody E0 E1 E2.
  assert (HN0 : NVec64.zero64 (y * E2 - z * E1) = true).
  { apply sub_zero; [apply mul_zero_l | apply mul_zero_r];
      assumption || (apply zero64_finite; assumption). }
  assert (HN1 : NVec64.zero64 (z * E0 - x * E2) = true).
  { apply sub_zero; [apply mul_zero_r | apply mul_zero_l];
      assumption || (apply zero64_finite; assumption). }
  assert (HN2 : NVec64.zero64 (x * E1 - y * E0) = true).
  { apply sub_zero; apply mul_zero_l;
      assumption || (apply zero64_finite; assumption). }
  set (N0 := y * E2 - z * E1) in *.
  set (N1 := z * E0 - x * E2) in *.
  set (N2 := x * E1 - y * E0) in *.
  clearbody N0 N1 N2.
  pose proof (Magnitude_of_zeros E0 E1 E2 HE0 HE1 HE2) as HmE.
  pose proof (Magnitude_of_zeros N0 N1 N2 HN0 HN1 HN2) as HmN.
  rewrite !(div_zero_zero _ _ HN0 HmN), !(div_zero_zero _ _ HN1 HmN),
    !(div_zero_zero _ _ HN2 HmN), !(div_zero_zero _ _ HE0 HmE),
    !(div_zero_zero _ _ HE1 HmE), !(div_zero_zero _ _ HE2 HmE).
  reflexivity.
Qed.

Lemma RotationMatrix64_on_the_axis_witness :
  NVec64.zero64 0 = true /\ NVec64.finite64 1 = true /\
  NVec64.RotationMatrix (NVec64.mkNVector (NVec64.vec3 0 0 1)) =
  NVec64.mat3 (NVec64.vec3 nan nan (- 0))
              (NVec64.vec3 nan nan (- 0))
              (NVec64.vec3 nan nan (- 1)).
Proof.
  assert (H0 : NVec64.zero64 0 = true) by reflexivity.
  assert (H1 : NVec64.finite64 1 = true) by reflexivity.
  split; [exact H0 |]. split; [exact H1 |].
  exact (RotationMatrix64_on_the_axis 0 0 1 H0 H0 H1).
Defined.

(** A finite number times [+0] is the zero of its sign, and a zero
    squared is [+0]. *)
Lemma mul_finite_zero (x : float) :
  NVec64.finite64 x = true ->
  x * 0 = if NVec64.signbit64 x then -0 else 0.
Proof.
  unfold NVec64.finite64, NVec64.signbit64. intros H.
  apply Prim2SF_inj. rewrite mul_spec.
  destruct (Prim2SF x) as [[|] | s | | [|] m e]; try discriminate;
    reflexivity.
Qed.

Lemma zero_square (u : float) : NVec64.zero64 u = true -> u * u = 0.
Proof.
  unfold NVec64.zero64. intros H. apply Prim2SF_inj. rewrite mul_spec.
  destruct (Prim2SF u) as [[|] | s | | s m e]; try discriminate;
    reflexivity.
Qed.

Lemma Magnitude_of_zeros_exact (u v w : float) :
  NVec64.zero64 u = true -> NVec64.zero64 v = true ->
  NVec64.zero64 w = true ->
  NVec64.Magnitude (NVec64.vec3 u v w) = 0.
Proof.
  intros Hu Hv Hw. unfold NVec64.Magnitude.
  cbn [NVec64.e0 NVec64.e1 NVec64.e2].
  rewrite !zero_square by assumption. reflexivity.
Qed.

Lemma finite_vec_components (v : NVec64.Vec3) :
  NVec64.finite_vec v = true ->
  NVec64.finite64 (NVec64.e0 v) = true /\
  NVec64.finite64 (NVec64.e1 v) = true /\
  NVec64.finite64 (NVec64.e2 v) = true.
Proof.
  unfold NVec64.finite_vec. intros H.
  apply andb_prop in H. destruct H as [H H2].
  apply andb_prop in H. destruct H as [H0 H1]. auto.
Qed.

(** The dot product of a finite vector with the zero vector is a zero,
    the negative one when every component has its sign bit set; the cross
    product with the zero vector has magnitude [+0]. *)
Lemma dot_with_zero (v : NVec64.Vec3) :
  NVec64.finite_vec v = true ->
  NVec64.dot v (NVec64.vec3 0 0 0)
  = if NVec64.all_signbit v then -0 else 0.
Proof.
  intros H. destruct (finite_vec_components v H) as (H0 & H1 & H2).
  unfold NVec64.dot, NVec64.all_signbit.
  cbn [NVec64.e0 NVec64.e1 NVec64.e2].
  rewrite !mul_finite_zero by assumption.
  destruct (NVec64.signbit64 (NVec64.e0 v)),
           (NVec64.signbit64 (NVec64.e1 v)),
           (NVec64.signbit64 (NVec64.e2 v)); reflexivity.
Qed.

Lemma Magnitude_cross_with_zero (v : NVec64.Vec3) :
  NVec64.finite_vec v = true ->
  NVec64.Magnitude (NVec64.cross v (NVec64.vec3 0 0 0)) = 0.
Proof.
  intros H. destruct (finite_vec_components v H) as (H0 & H1 & H2).
  assert (Hz : NVec64.zero64 0 = true) by reflexivity.
  unfold NVec64.cross. cbn [NVec64.e0 NVec64.e1 NVec64.e2].
  apply Magnitude_of_zeros_exact; apply sub_zero; apply mul_zero_r;
    assumption.
Qed.

Lemma plain_vector_parts (v : NVec64.Vec3) :
  NVec64.plain_vector v = true ->
  NVec64.finite_vec v = true /\
  NVec64.cross v v = NVec64.vec3 0 0 0 /\
  NVec64.nan64 (NVec64.dot v v) = false.
Proof.
  unfold NVec64.plain_vector. intros H.
  apply andb_prop in H. destruct H as [H Hn].
  apply andb_prop in H. destruct H as [Hf Hp].
  split; [exact Hf |]. split.
  - unfold NVec64.finite_products in Hp.
    apply andb_prop in Hp. destruct Hp as [Hp H01].
    apply andb_prop in Hp. destruct Hp as [H12 H20].
    apply cross_self64; assumption.
  - apply negb_true_iff. exact Hn.
Qed.

(** With the special cases of [math.Atan2] at a first argument [+0], the
    distance on the unit sphere from a plain vector to itself is [+0], and
    its distance to the zero vector is [+0], or [math.Pi] when every
    component has its sign bit set. *)
Lemma SphericalDistance64_same
    (Atan2 : float -> float -> float) (p : NVec64.NVector) :
  NVec64.Atan2_of_zero Atan2 ->
  NVec64.plain_vector (NVec64.nvec p) = true ->
  NVec64.SphericalDistance Atan2 p p 1 = 0.
Proof.
  intros Hat Hp. destruct (plain_vector_parts _ Hp) as (_ & Hc & Hn).
  unfold NVec64.SphericalDistance. rewrite Hc.
  change (NVec64.Magnitude (NVec64.vec3 0 0 0)) with 0.
  rewrite (Hat _ Hn), dot_self_signbit. reflexivity.
Qed.

Lemma SphericalDistance64_to_zero
    (Atan2 : float -> float -> float) (p : NVec64.NVector) :
  NVec64.Atan2_of_zero Atan2 ->
  NVec64.plain_vector (NVec64.nvec p) = true ->
  NVec64.SphericalDistance Atan2 p
    (NVec64.mkNVector (NVec64.vec3 0 0 0)) 1
  = if NVec64.all_signbit (NVec64.nvec p) then NVec64.Pi else 0.
Proof.
  intros Hat Hp. destruct (plain_vector_parts _ Hp) as (Hf & _ & _).
  unfold NVec64.SphericalDistance. cbn [NVec64.nvec].
  rewrite (Magnitude_cross_with_zero _ Hf), (dot_with_zero _ Hf).
  destruct (NVec64.all_signbit (NVec64.nvec p));
    rewrite Hat by reflexivity; reflexivity.
Qed.

(** [Intersection(p, p, q, q)] on binary64, both segments reduced to a
    point, with the special cases of [math.Atan2] at a first argument
    [+0].  The two normals and the candidate are the zero vector, which is
    returned.  The dot product of [p] with it is a zero whose sign bit is
    set exactly when that of every component of [p] is; there
    [math.Atan2(+0, -0)] is [math.Pi], the two partial distances are
    [math.Pi] and the check of the first segment fails.  So the error is
    [NoIntersectionError] when [p] or [q] has all its components negative
    (or negative zeros), and [nil] otherwise. *)
Theorem Intersection64_degenerate
    (Atan2 : float -> float -> float) (p q : NVec64.NVector) :
  NVec64.Atan2_of_zero Atan2 ->
  NVec64.plain_vector (NVec64.nvec p) = true ->
  NVec64.plain_vector (NVec64.nvec q) = true ->
  NVec64.Intersection Atan2 p p q q
  = (NVec64.mkNVector (NVec64.vec3 0 0 0),
     if NVec64.all_signbit (NVec64.nvec p)
        || NVec64.all_signbit (NVec64.nvec q)
     then Some NVec64.NoIntersectionError else None).
Proof.
  intros Hat Hp Hq.
  destruct (plain_vector_parts _ Hp) as (Hfp & Hcp & _).
  destruct (plain_vector_parts _ Hq) as (_ & Hcq & _).
  assert (Hlt : (NVec64.dot (NVec64.vec3 0 0 0) (NVec64.nvec p) <? 0)
                = false).
  { rewrite dot_comm64, (dot_with_zero _ Hfp).
    destruct (NVec64.all_signbit (NVec64.nvec p)); reflexivity. }
  unfold NVec64.Intersection. rewrite Hcp, Hcq.
  change (NVec64.cross (NVec64.vec3 0 0 0) (NVec64.vec3 0 0 0))
    with (NVec64.vec3 0 0 0).
  rewrite Hlt.
  rewrite !(SphericalDistance64_same Atan2 p Hat Hp),
    !(SphericalDistance64_same Atan2 q Hat Hq),
    !(SphericalDistance64_to_zero Atan2 p Hat Hp),
    !(SphericalDistance64_to_zero Atan2 q Hat Hq).
  destruct (NVec64.all_signbit (NVec64.nvec p)),
           (NVec64.all_signbit (NVec64.nvec q)); reflexivity.
Qed.

(** The two cases at [p = (-0.36, -0.48, -0.8)] and [q = (1, 0, 0)], with
    the special cases of [math.Atan2]: an error for [(p, p, q, q)]. *)
Lemma Intersection64_degenerate_witness :
  NVec64.Atan2_of_zero NVec64.Atan2_at_zero /\
  NVec64.plain_vector
    (NVec64.vec3 (-0x1.70a3d70a3d70ap-2) (-0x1.eb851eb851eb8p-2)
       (-0x1.999999999999ap-1)) = true /\
  NVec64.plain_vector (NVec64.nvec NVec64.nv_x) = true /\
  NVec64.Intersection NVec64.Atan2_at_zero
    (NVec64.mkNVector
       (NVec64.vec3 (-0x1.70a3d70a3d70ap-2) (-0x1.eb851eb851eb8p-2)
          (-0x1.999999999999ap-1)))
    (NVec64.mkNVector
       (NVec64.vec3 (-0x1.70a3d70a3d70ap-2) (-0x1.eb851eb851eb8p-2)
          (-0x1.999999999999ap-1)))
    NVec64.nv_x NVec64.nv_x
  = (NVec64.mkNVector (NVec64.vec3 0 0 0), Some NVec64.NoIntersectionError).
Proof.
  assert (Hp : NVec64.plain_vector
                 (NVec64.nvec
                    (NVec64.mkNVector
                       (NVec64.vec3 (-0x1.70a3d70a3d70ap-2)
                          (-0x1.eb851eb851eb8p-2)
                          (-0x1.999999999999ap-1)))) = true)
    by (vm_compute; reflexivity).
  assert (Hq : NVec64.plain_vector (NVec64.nvec NVec64.nv_x) = true)
    by (vm_compute; reflexivity).
  split; [exact Atan2_at_zero_of_zero |].
  split; [exact Hp |]. split; [exact Hq |].
  exact (Intersection64_degenerate NVec64.Atan2_at_zero _ NVec64.nv_x
           Atan2_at_zero_of_zero Hp Hq).
Defined.

(** [NewLonLat] on numbers that are not finite: a NaN latitude is not
    rejected, since both comparisons of the latitude test are false on
    NaN, and an infinite longitude that is accepted is stored as NaN. *)
Theorem NewLonLat64_not_finite :
  (forall londeg : float,
      snd (NVec64.NewLonLat londeg nan) = None /\
      exists lon : float,
        fst (NVec64.NewLonLat londeg nan)
        = Some (NVec64.mkLonLat lon nan)) /\
  (forall (latdeg : float) (ll : NVec64.LonLat),
      NVec64.NewLonLat infinity latdeg = (Some ll, None)
      \/ NVec64.NewLonLat neg_infinity latdeg = (Some ll, None) ->
      NVec64.Lon ll = nan).
Proof.
  split.
  - intros londeg. split; [reflexivity |]. eexists. reflexivity.
  - intros latdeg ll [H | H]; unfold NVec64.NewLonLat in H; cbv zeta in H;
      match type of H with
      | (if ?c then _ else _) = _ => destruct c
      end; try discriminate;
      injection H as <-; reflexivity.
Qed.

(** The longitude stored for an infinite longitude at latitude 0. *)
Lemma NewLonLat64_not_finite_witness :
  NVec64.NewLonLat infinity 0 = (Some (NVec64.mkLonLat nan 0), None) /\
  NVec64.Lon (NVec64.mkLonLat nan 0) = nan.
Proof.
  assert (H : NVec64.NewLonLat infinity 0
              = (Some (NVec64.mkLonLat nan 0), None))
    by (vm_compute; reflexivity).
  split; [exact H |].
  exact (proj2 NewLonLat64_not_finite 0 (NVec64.mkLonLat nan 0)
           (or_introl H)).
Defined.

End Binary64More.
